(** * FHIR bulk import driver: a shallow embedding of [importer/import_fhir_data.py]

    The script lists the [.ndjson] objects of a storage bucket, groups them
    into datasets, and for every selected dataset submits a FHIR [$import]
    job and polls its status URL.

    - Pure parts (string handling, grouping) are Rocq functions.  Python
      [str] values are modelled by [string]; the characters of the object
      names the script handles are ASCII.  The size of a dataset, which
      Python computes with the true division of two [int]s, is kept as the
      exact rational quotient.
    - The parts that talk to the network run in a small monad that threads
      an abstract world, records every request together with its answer,
      every printed line and every sleep, and ends by returning, by
      [sys.exit], or by an exception nobody catches.
    - The two [while True] loops take fuel; a loop that is still going
      when the fuel is used up ends in [StillRunning].
    - JSON bodies are read through typed views that keep the optional
      fields the script looks at: a status body is an object whose
      [issue], if present, is a list of objects with string fields. *)

From Stdlib Require Import String Ascii List ZArith QArith Bool Lia.
From Stdlib Require Import Sorted Permutation.
Import ListNotations.
Local Open Scope string_scope.
Local Open Scope Z_scope.

(** ** Python string operations used by the script *)

Module PyStr.

(** [s.startswith(p)] *)
Definition startswith (s p : string) : bool := String.prefix p s.

(** [s.endswith(p)] *)
Definition endswith (s p : string) : bool :=
  let n := String.length s in
  let m := String.length p in
  (m <=? n)%nat && (substring (n - m) m s =? p)%string.

(** [s.find(sub)], counting from [i]: the index of the first occurrence,
    [-1] when there is none. *)
Fixpoint find_from (sub s : string) (i : Z) : Z :=
  if String.prefix sub s then i
  else match s with
       | EmptyString => -1
       | String _ s' => find_from sub s' (i + 1)
       end.

Definition find (s sub : string) : Z := find_from sub s 0.

(** [sub in s] *)
Definition contains (sub s : string) : bool := negb (find s sub =? -1).

(** [s[:k]]; a negative [k] counts from the end. *)
Definition slice_to (s : string) (k : Z) : string :=
  let n := Z.of_nat (String.length s) in
  let stop := if k <? 0 then Z.max 0 (n + k) else Z.min k n in
  substring 0 (Z.to_nat stop) s.

(** [s.replace(old, new)] for a non-empty [old]: occurrences are replaced
    from the left and do not overlap.  [skip] counts the characters of
    the occurrence just replaced that are still to be dropped. *)
Fixpoint replace_go (old new s : string) (skip : nat) : string :=
  match s with
  | EmptyString => EmptyString
  | String c s' =>
      match skip with
      | S k => replace_go old new s' k
      | O => if String.prefix old s
             then new ++ replace_go old new s' (String.length old - 1)
             else String c (replace_go old new s' 0)
      end
  end.

(** With an empty [old] Python puts [new] around every character. *)
Fixpoint interleave (new s : string) : string :=
  match s with
  | EmptyString => EmptyString
  | String c s' => String c (new ++ interleave new s')
  end.

Definition replace (s old new : string) : string :=
  match old with
  | EmptyString => new ++ interleave new s
  | String _ _ => replace_go old new s 0
  end.

Fixpoint has_char (sep : ascii) (s : string) : bool :=
  match s with
  | EmptyString => false
  | String c s' => Ascii.eqb c sep || has_char sep s'
  end.

(** [s.split(sep)[-1]] for a one-character separator. *)
Fixpoint last_segment (sep : ascii) (s : string) : string :=
  match s with
  | EmptyString => EmptyString
  | String _ s' => if has_char sep s then last_segment sep s' else s
  end.

(** [key.lower()] on ASCII letters, for case-insensitive header names. *)
Definition lower_ascii (c : ascii) : ascii :=
  let n := nat_of_ascii c in
  if ((65 <=? n) && (n <=? 90))%nat then ascii_of_nat (n + 32) else c.

Fixpoint lower (s : string) : string :=
  match s with
  | EmptyString => EmptyString
  | String c s' => String (lower_ascii c) (lower s')
  end.

End PyStr.

(** ** Python containers used by the script *)

Module PyList.

(** [set(l)] followed by [sorted]: the set keeps one copy of every
    element, and sorting distinct strings gives one list whatever order
    the set is walked in.  [set_of] keeps the first copy. *)
Definition set_of (l : list string) : list string := nodup string_dec l.

Fixpoint insert_sorted (x : string) (l : list string) : list string :=
  match l with
  | [] => [x]
  | y :: l' => if (x <=? y)%string then x :: l else y :: insert_sorted x l'
  end.

(** [sorted(l)] on strings: ascending in the order of [str] comparison. *)
Definition sorted (l : list string) : list string :=
  fold_right insert_sorted [] l.

End PyList.

(** A [dict] with string keys keeps its keys in insertion order;
    assigning to a key that is present overwrites the value in place. *)
Module PyDict.
Section Dict.
Context {V : Type}.

Definition dict := list (string * V).

Fixpoint set (d : dict) (k : string) (v : V) : dict :=
  match d with
  | [] => [(k, v)]
  | (k', v') :: d' =>
      if (k' =? k)%string then (k', v) :: d' else (k', v') :: set d' k v
  end.

Fixpoint get (d : dict) (k : string) : option V :=
  match d with
  | [] => None
  | (k', v') :: d' => if (k' =? k)%string then Some v' else get d' k
  end.

Definition keys (d : dict) : list string := map fst d.
End Dict.
Arguments dict : clear implicits.
End PyDict.

(** ** Module constants *)

Definition BUCKET_BASE : string :=
  "https://storage.googleapis.com/fhir-aggregator-public".
Definition POLL_INTERVAL : Z := 10.
(** The default that applies when the environment does not set it. *)
Definition FHIR_SERVER_URL : string := "http://fhir-server:8080/fhir".
Definition MARKER : string := "META".
Definition NDJSON : string := ".ndjson".

(** ** Data model *)

(** One entry of the object listing: [{"url": ..., "size": ...}]. *)
Record StorageObject := { url : string; size : Z }.

(** One value of the dataset dictionary: [{'size': ..., 'objects': ...}].
    The size in megabytes is the quotient the script computes with [/],
    kept as a rational. *)
Record DatasetInfo := { ds_size : Q; ds_objects : list string }.

(** ** Dataset grouping ([discover_datasets], after the listing) *)

Definition relative_path (o : StorageObject) : string :=
  PyStr.replace (url o) (BUCKET_BASE ++ "/") "".

(** [_[:_.find('META') + len('META')]] *)
Definition derived_name (p : string) : string :=
  PyStr.slice_to p (PyStr.find p MARKER + Z.of_nat (String.length MARKER)).

Definition projects (objects : list StorageObject) : list string :=
  PyList.sorted (PyList.set_of (map derived_name (map relative_path objects))).

Definition matching (project : string) (objects : list StorageObject)
  : list StorageObject :=
  filter (fun o => PyStr.contains project (url o)) objects.

Definition sum_sizes (l : list StorageObject) : Z :=
  fold_left (fun acc o => acc + size o) l 0.

Definition dataset_info (objects : list StorageObject) (project : string)
  : DatasetInfo :=
  {| ds_size := (inject_Z (sum_sizes (matching project objects))
                 / inject_Z (1024 * 1024))%Q;
     ds_objects := map url (matching project objects) |}.

Definition group_objects (objects : list StorageObject)
  : PyDict.dict DatasetInfo :=
  fold_left (fun d project => PyDict.set d project (dataset_info objects project))
            (projects objects) [].

(** ** HTTP values *)

(** Response headers; [requests] looks names up without regard to case. *)
Definition Headers := list (string * string).

Fixpoint headers_get (h : Headers) (k : string) : option string :=
  match h with
  | [] => None
  | (k', v) :: h' =>
      if (PyStr.lower k' =? PyStr.lower k)%string then Some v
      else headers_get h' k
  end.

Definition headers_get_default (h : Headers) (k d : string) : string :=
  match headers_get h k with Some v => v | None => d end.

(** Exceptions that the script does not catch itself. *)
Inductive Exn :=
| RequestException (info : string)
| HTTPError (status : Z)
| JSONDecodeError
| KeyError (key : string).

(** A page of the storage listing. *)
Record Item := { item_name : string; item_size : Z }.
Record ListData := { items : option (list Item); nextPageToken : option string }.
Record ListResponse := { list_status : Z; list_json : option ListData }.

Record HeadResponse := { head_status : Z; head_headers : Headers }.

(** The [Parameters] resource posted to [$import]. *)
#[warnings="-register-all"] Inductive Param :=
| ValueString (name value : string)
| ValueUri (name value : string)
| ValueCode (name value : string)
| Part (name : string) (part : list Param).

Record Payload := { p_resourceType : string; parameter : list Param }.

Record PostResponse :=
  { post_status : Z; post_headers : Headers; post_text : string }.

(** The body of a status response, as far as the script reads it:
    [issue.get("severity")], [issue.get("details", {}).get("text")] and
    [issue.get("diagnostics")] may each be absent. *)
Record Issue :=
  { severity : option string;
    details : option (option string);
    diagnostics : option string }.

Record StatusData :=
  { resourceType : option string; issue : option (list Issue) }.

(** [st_json] is [None] when [response.json()] raises. *)
Record StatusResponse :=
  { st_status : Z; st_headers : Headers; st_text : string;
    st_json : option StatusData }.


(** ** What the script prints *)

Inductive Msg :=
| MsgDiscovering
| MsgAvailable
| MsgDataset (name : string) (size_mb : Q)
| MsgNoResources (name : string)
| MsgImporting (name : string) (count : nat)
| MsgUrlInaccessible (u : string) (status : Z)
| MsgUrlContentType (u content_type : string)
| MsgUrlError (u : string) (e : Exn)
| MsgNoValidResources (name : string)
| MsgAddingResource (resource_type u : string)
| MsgSubmitFailed (name u : string) (status : Z)
| MsgResponseText (text : string)
| MsgSubmitted (name status_url : string)
| MsgPollContentType (name content_type : string)
| MsgInProgress (name : string) (data : StatusData)
| MsgPollStatus (name : string) (status : Z)
| MsgUnexpectedFormat (name : string)
| MsgResponseData (data : StatusData)
| MsgIssue (sev text : string)
| MsgPayload (data : StatusData)
| MsgImportFailed (name : string)
| MsgReport (name report : string)
| MsgImportCompleted (name : string).

(** ** The run monad

    Every request is recorded with the answer it got, every [print] and
    every [time.sleep] is recorded too. *)

Inductive Event :=
| EvPrint (m : Msg)
| EvList (api_url : string) (page_token : option string) (r : Exn + ListResponse)
| EvHead (u : string) (r : Exn + HeadResponse)
| EvPost (u : string) (h : Headers) (p : Payload) (r : Exn + PostResponse)
| EvGet (u : string) (r : Exn + StatusResponse)
| EvSleep (seconds : Z).

(** How a computation ends: it returns, the process exits, an exception
    escapes, or the loop is still going when the fuel is used up. *)
Inductive Outcome (A : Type) :=
| Ret (a : A)
| SysExit (code : Z)
| Uncaught (e : Exn)
| StillRunning.
Arguments Ret {A} a.
Arguments SysExit {A} code.
Arguments Uncaught {A} e.
Arguments StillRunning {A}.

Record Run (W A : Type) :=
  { outcome : Outcome A; world : W; trace : list Event }.
Arguments outcome {W A} r.
Arguments world {W A} r.
Arguments trace {W A} r.

Definition M (W A : Type) : Type := W -> Run W A.

Definition ret {W A} (a : A) : M W A :=
  fun w => {| outcome := Ret a; world := w; trace := [] |}.

Definition stop {W A} (o : Outcome A) : M W A :=
  fun w => {| outcome := o; world := w; trace := [] |}.

Definition bind {W A B} (m : M W A) (f : A -> M W B) : M W B :=
  fun w =>
    let r := m w in
    match outcome r with
    | Ret a =>
        let r' := f a (world r) in
        {| outcome := outcome r'; world := world r';
           trace := (trace r ++ trace r')%list |}
    | SysExit c => {| outcome := SysExit c; world := world r; trace := trace r |}
    | Uncaught e => {| outcome := Uncaught e; world := world r; trace := trace r |}
    | StillRunning => {| outcome := StillRunning; world := world r; trace := trace r |}
    end.

Declare Scope run_scope.
Delimit Scope run_scope with run.
Notation "x <- m ;; k" := (bind m (fun x => k))
  (at level 61, m at next level, right associativity) : run_scope.
Notation "m ;; k" := (bind m (fun _ => k))
  (at level 61, right associativity) : run_scope.
Local Open Scope run_scope.

Definition emit {W} (e : Event) : M W unit :=
  fun w => {| outcome := Ret tt; world := w; trace := [e] |}.

Definition print {W} (m : Msg) : M W unit := emit (EvPrint m).
Definition sys_exit {W A} (code : Z) : M W A := stop (SysExit code).
Definition raise {W A} (e : Exn) : M W A := stop (Uncaught e).
Definition sleep {W} (seconds : Z) : M W unit := emit (EvSleep seconds).

(** The services the script talks to, over a world [W] they may change,
    and the JSON decoding of an embedded report:
    [load_report d] is [json.loads(d)["reportMsg"]]. *)
Record Env (W : Type) :=
  { storage_get : string -> option string -> W -> (Exn + ListResponse) * W;
    session_head : string -> W -> (Exn + HeadResponse) * W;
    session_post : string -> Headers -> Payload -> W -> (Exn + PostResponse) * W;
    requests_get : string -> W -> (Exn + StatusResponse) * W;
    load_report : string -> Exn + string }.
Arguments storage_get {W} e.
Arguments session_head {W} e.
Arguments session_post {W} e.
Arguments requests_get {W} e.
Arguments load_report {W} e.

(** A request: ask the world, record the exchange, hand back the answer
    (an exception is handed back as a value so that the caller can catch
    it or let it escape). *)
Definition request {W R} (ask : W -> R * W) (ev : R -> Event) : M W R :=
  fun w => let (r, w') := ask w in
           {| outcome := Ret r; world := w'; trace := [ev r] |}.

Definition or_raise {W R} (r : Exn + R) : M W R :=
  match r with inl e => raise e | inr x => ret x end.

(** ** The script *)

Section Script.
Context {W : Type} (env : Env W).

Definition get_list (api_url : string) (page_token : option string)
  : M W (Exn + ListResponse) :=
  request (storage_get env api_url page_token) (EvList api_url page_token).

Definition head (u : string) : M W (Exn + HeadResponse) :=
  request (session_head env u) (EvHead u).

Definition post (u : string) (h : Headers) (p : Payload)
  : M W (Exn + PostResponse) :=
  request (session_post env u h p) (EvPost u h p).

Definition get (u : string) : M W (Exn + StatusResponse) :=
  request (requests_get env u) (EvGet u).

(** [resp.raise_for_status()] *)
Definition raise_for_status (status : Z) : M W unit :=
  if (400 <=? status) && (status <? 600) then raise (HTTPError status)
  else ret tt.

(** The objects one page adds to [ndjson_files]. *)
Definition page_objects (bucket_base : string) (data : ListData)
  : list StorageObject :=
  map (fun item => {| url := bucket_base ++ "/" ++ item_name item;
                      size := item_size item |})
      (filter (fun item => PyStr.endswith (item_name item) NDJSON)
              (match items data with Some l => l | None => [] end)).

(** The [while True] loop of [list_ndjson_objects]; [page_token] is
    [params.get("pageToken")]. *)
Fixpoint list_pages (fuel : nat) (bucket_base api_url : string)
         (page_token : option string) (ndjson_files : list StorageObject)
  : M W (list StorageObject) :=
  match fuel with
  | O => stop StillRunning
  | S fuel' =>
      r <- get_list api_url page_token ;;
      resp <- or_raise r ;;
      raise_for_status (list_status resp) ;;
      data <- match list_json resp with
              | Some d => ret d
              | None => raise JSONDecodeError
              end ;;
      let ndjson_files := (ndjson_files ++ page_objects bucket_base data)%list in
      match nextPageToken data with
      | Some t => list_pages fuel' bucket_base api_url (Some t) ndjson_files
      | None => ret ndjson_files
      end
  end.

Definition list_ndjson_objects (fuel : nat) (bucket_base : string)
  : M W (list StorageObject) :=
  let bucket_name := PyStr.last_segment "/" bucket_base in
  let api_url :=
    "https://storage.googleapis.com/storage/v1/b/" ++ bucket_name ++ "/o" in
  list_pages fuel bucket_base api_url None [].

Definition discover_datasets (fuel : nat) : M W (PyDict.dict DatasetInfo) :=
  print MsgDiscovering ;;
  objects <- list_ndjson_objects fuel BUCKET_BASE ;;
  ret (group_objects objects).

(** *** Status polling *)

Definition issue_severity (i : Issue) : string :=
  match severity i with Some s => s | None => "unknown" end.

Definition issue_details_text (i : Issue) : string :=
  match details i with Some (Some t) => t | _ => "" end.

(** The [for issue in issues] loop; [ok] is the flag it maintains. *)
Fixpoint check_issues (issues : list Issue) (ok : bool) : M W bool :=
  match issues with
  | [] => ret ok
  | i :: rest =>
      let sev := issue_severity i in
      print (MsgIssue sev (issue_details_text i)) ;;
      check_issues rest (ok && negb (sev =? "error")%string)
  end.

(** The test that selects the embedded report. *)
Definition embedded_report (issues : list Issue) : option string :=
  match issues with
  | [i] =>
      let d := match diagnostics i with Some d => d | None => "" end in
      if match severity i with
         | Some s => (s =? "information")%string
         | None => false
         end && PyStr.contains "reportMsg" d
      then Some d else None
  | _ => None
  end.

(** The part of the loop body that handles an [OperationOutcome]. *)
Definition handle_outcome (dataset_name : string) (status_data : StatusData)
  : M W unit :=
  let issues := match issue status_data with Some l => l | None => [] end in
  ok <- check_issues issues true ;;
  (if negb ok then
     print (MsgPayload status_data) ;;
     print (MsgImportFailed dataset_name)
   else
     match embedded_report issues with
     | Some d =>
         report <- or_raise (load_report env d) ;;
         print (MsgReport dataset_name report)
     | None => print (MsgPayload status_data)
     end ;;
     print (MsgImportCompleted dataset_name)) ;;
  sys_exit 0.

(** One turn of the [while True] loop of [poll_import_status]; it
    returns when the loop is to go round again. *)
Definition poll_once (dataset_name status_url : string) : M W unit :=
  r <- get status_url ;;
  response <- or_raise r ;;
  let content_type :=
    headers_get_default (st_headers response) "Content-Type" "" in
  if negb (PyStr.contains "json" content_type) then
    print (MsgPollContentType dataset_name content_type) ;;
    print (MsgResponseText (st_text response)) ;;
    sys_exit 1
  else
    status_data <- match st_json response with
                   | Some d => ret d
                   | None => raise JSONDecodeError
                   end ;;
    if st_status response =? 202 then
      print (MsgInProgress dataset_name status_data) ;;
      sleep POLL_INTERVAL
    else if negb (st_status response =? 200) then
      print (MsgPollStatus dataset_name (st_status response)) ;;
      print (MsgResponseText (st_text response)) ;;
      sys_exit 1
    else if match resourceType status_data with
            | Some t => negb (t =? "OperationOutcome")%string
            | None => true
            end then
      print (MsgUnexpectedFormat dataset_name) ;;
      print (MsgResponseData status_data) ;;
      sys_exit 1
    else handle_outcome dataset_name status_data.

Fixpoint poll_import_status (fuel : nat) (dataset_name status_url : string)
  : M W unit :=
  match fuel with
  | O => stop StillRunning
  | S fuel' =>
      poll_once dataset_name status_url ;;
      poll_import_status fuel' dataset_name status_url
  end.

(** *** Submission *)

(** One turn of the validation loop; the result says whether the URL is
    appended to [valid_urls]. *)
Definition check_url (u : string) : M W bool :=
  r <- head u ;;
  match r with
  | inl e => print (MsgUrlError u e) ;; ret false
  | inr head_resp =>
      if negb (head_status head_resp =? 200) then
        print (MsgUrlInaccessible u (head_status head_resp)) ;; ret false
      else
        let content_type :=
          headers_get_default (head_headers head_resp) "Content-Type" "" in
        if negb (PyStr.contains "json" content_type) then
          print (MsgUrlContentType u content_type) ;; ret false
        else ret true
  end.

Fixpoint validate_urls (resource_urls valid_urls : list string)
  : M W (list string) :=
  match resource_urls with
  | [] => ret valid_urls
  | u :: rest =>
      keep <- check_url u ;;
      validate_urls rest (if keep then (valid_urls ++ [u])%list else valid_urls)
  end.

Definition resource_type_of (u : string) : string :=
  PyStr.replace (PyStr.last_segment "/" u) NDJSON "".

Definition input_parameter (u : string) : Param :=
  Part "input" [ValueCode "type" (resource_type_of u); ValueUri "url" u].

Definition base_parameters : list Param :=
  [ValueString "inputFormat" "application/fhir+ndjson";
   ValueUri "inputSource" (BUCKET_BASE ++ "/");
   Part "storageDetail" [ValueCode "type" "https"]].

(** The loop that appends one [input] entry per valid URL. *)
Fixpoint add_inputs (valid_urls : list string) (params : list Param)
  : M W (list Param) :=
  match valid_urls with
  | [] => ret params
  | u :: rest =>
      print (MsgAddingResource (resource_type_of u) u) ;;
      add_inputs rest (params ++ [input_parameter u])%list
  end.

Definition import_headers : Headers :=
  [("Content-Type", "application/fhir+json");
   ("Prefer", "respond-async");
   ("X-Upsert-Extistence-Check", "disabled")].

Definition import_url : string := FHIR_SERVER_URL ++ "/$import".

(** What follows the [POST]: the check of the [Content-Location] header
    and the hand-over to the poller. *)
Definition after_submit (fuel : nat) (dataset_name : string)
           (r : Exn + PostResponse) : M W unit :=
  response <- or_raise r ;;
  match headers_get (post_headers response) "Content-Location" with
  | None =>
      print (MsgSubmitFailed dataset_name import_url (post_status response)) ;;
      print (MsgResponseText (post_text response)) ;;
      sys_exit 1
  | Some status_url =>
      print (MsgSubmitted dataset_name status_url) ;;
      poll_import_status fuel dataset_name status_url
  end.

Definition submit_import (fuel : nat) (dataset_name : string)
           (resource_urls : list string) : M W unit :=
  let resource_urls :=
    filter (fun u => PyStr.endswith u NDJSON) resource_urls in
  match resource_urls with
  | [] => print (MsgNoResources dataset_name)
  | _ :: _ =>
      print (MsgImporting dataset_name (List.length resource_urls)) ;;
      valid_urls <- validate_urls resource_urls [] ;;
      match valid_urls with
      | [] => print (MsgNoValidResources dataset_name)
      | _ :: _ =>
          params <- add_inputs valid_urls base_parameters ;;
          let payload :=
            {| p_resourceType := "Parameters"; parameter := params |} in
          r <- post import_url import_headers payload ;;
          after_submit fuel dataset_name r
      end
  end.

(** *** Command line *)

Inductive Command := CmdImport | CmdList.

Record Args :=
  { command : Command; only : option string; skip_legacy : bool }.

(** [args.only and args.only not in dataset] *)
Definition excluded_by_only (a : Args) (dataset : string) : bool :=
  match only a with
  | Some k => negb (k =? "")%string && negb (PyStr.contains k dataset)
  | None => false
  end.

Definition skipped (a : Args) (dataset : string) : bool :=
  (skip_legacy a && PyStr.startswith dataset "R4")
  || excluded_by_only a dataset.

(** The [for dataset, dataset_info in datasets.items()] loop. *)
Fixpoint import_loop (fuel : nat) (a : Args)
         (datasets : PyDict.dict DatasetInfo) : M W unit :=
  match datasets with
  | [] => ret tt
  | (dataset, dataset_info) :: rest =>
      let urls := ds_objects dataset_info in
      if skip_legacy a && PyStr.startswith dataset "R4" then
        import_loop fuel a rest
      else if excluded_by_only a dataset then
        import_loop fuel a rest
      else
        submit_import fuel dataset urls ;;
        import_loop fuel a rest
  end.

Fixpoint list_loop (datasets : PyDict.dict DatasetInfo) : M W unit :=
  match datasets with
  | [] => ret tt
  | (dataset, dataset_info) :: rest =>
      print (MsgDataset dataset (ds_size dataset_info)) ;;
      list_loop rest
  end.

Definition main (fuel : nat) (a : Args) : M W unit :=
  datasets <- discover_datasets fuel ;;
  match command a with
  | CmdList => print MsgAvailable ;; list_loop datasets
  | CmdImport => import_loop fuel a datasets
  end.

End Script.

(** ** Vocabulary of the statements *)

(** Strict order of [str] comparison. *)
Definition str_lt (a b : string) : Prop := (a <? b)%string = true.

(** Sum of the byte sizes of a list of objects. *)
Definition total_bytes (l : list StorageObject) : Z :=
  fold_right Z.add 0 (map size l).

(** The severities of the data model, in increasing order. *)
Definition severity_rank (s : string) : option nat :=
  if (s =? "information")%string then Some 0%nat
  else if (s =? "warning")%string then Some 1%nat
  else if (s =? "error")%string then Some 2%nat
  else None.

(** The issue carries one of the three severities of the data model. *)
Definition known_severity (i : Issue) : Prop :=
  exists s r, severity i = Some s /\ severity_rank s = Some r.

(** The issue's severity is strictly less than [error]. *)
Definition below_error (i : Issue) : Prop :=
  exists s r, severity i = Some s /\ severity_rank s = Some r /\ (r < 2)%nat.

(** [issues = status_data.get("issue", [])] *)
Definition issues_of (data : StatusData) : list Issue :=
  match issue data with Some l => l | None => [] end.

(** A status response that ends the polling with a diagnostic outcome:
    JSON content type, status 200, a body that decodes, and resource type
    [OperationOutcome]. *)
Definition terminal_outcome (resp : StatusResponse) (data : StatusData) : Prop :=
  PyStr.contains "json"
    (headers_get_default (st_headers resp) "Content-Type" "") = true /\
  st_status resp = 200 /\
  st_json resp = Some data /\
  resourceType data = Some "OperationOutcome".

(** A status response that keeps the poller waiting: JSON content type,
    a body that decodes, status 202. *)
Definition in_progress (resp : StatusResponse) (data : StatusData) : Prop :=
  PyStr.contains "json"
    (headers_get_default (st_headers resp) "Content-Type" "") = true /\
  st_json resp = Some data /\
  st_status resp = 202.

(** Asked for [u] again and again from world [w], the server answers the
    responses of the list, all in progress, and is then in world [w']. *)
Inductive waits {W : Type} (env : Env W) (u : string)
  : W -> list StatusResponse -> W -> Prop :=
| waits_done (w : W) : waits env u w [] w
| waits_more (w w1 w2 : W) resp data rest :
    requests_get env u w = (inr resp, w1) ->
    in_progress resp data ->
    waits env u w1 rest w2 ->
    waits env u w (resp :: rest) w2.


(** No issue of the list has severity [error], read as the loop reads it. *)
Definition no_error (issues : list Issue) : bool :=
  forallb (fun i => negb (issue_severity i =? "error")%string) issues.

(** The lines the issue loop prints. *)
Definition issue_lines (issues : list Issue) : list Event :=
  map (fun i => EvPrint (MsgIssue (issue_severity i) (issue_details_text i)))
      issues.

(** A run that goes on after the events [t] have happened. *)
Definition after {W A} (t : list Event) (r : Run W A) : Run W A :=
  {| outcome := outcome r; world := world r; trace := t ++ trace r |}.

(** The three checks a probed URL has to pass. *)
Definition probe_passes (r : Exn + HeadResponse) : bool :=
  match r with
  | inl _ => false
  | inr resp =>
      (head_status resp =? 200)
      && PyStr.contains "json"
           (headers_get_default (head_headers resp) "Content-Type" "")
  end.

(** The requests of a trace, by kind. *)
Fixpoint probes (t : list Event) : list (string * (Exn + HeadResponse)) :=
  match t with
  | [] => []
  | EvHead u r :: t' => (u, r) :: probes t'
  | _ :: t' => probes t'
  end.

Fixpoint posts (t : list Event) : list Payload :=
  match t with
  | [] => []
  | EvPost _ _ p _ :: t' => p :: posts t'
  | _ :: t' => posts t'
  end.

Fixpoint polls (t : list Event) : list string :=
  match t with
  | [] => []
  | EvGet u _ :: t' => u :: polls t'
  | _ :: t' => polls t'
  end.

(** The URLs that passed their probe, in the order of the probes. *)
Definition passing (t : list Event) : list string :=
  map fst (filter (fun p => probe_passes (snd p)) (probes t)).

(** Events that are no request: printed lines and sleeps. *)
Definition is_request (e : Event) : bool :=
  match e with
  | EvPrint _ | EvSleep _ => false
  | _ => true
  end.

Definition quiet (t : list Event) : Prop :=
  Forall (fun e => is_request e = false) t.

(** The URLs a payload asks the server to import. *)
Fixpoint input_urls (ps : list Param) : list string :=
  match ps with
  | [] => []
  | Part "input" [_; ValueUri _ u] :: ps' => u :: input_urls ps'
  | _ :: ps' => input_urls ps'
  end.

(** ** Sample inputs *)

Definition obj (name : string) (sz : Z) : StorageObject :=
  {| url := BUCKET_BASE ++ "/" ++ name; size := sz |}.

Definition sample_objects : list StorageObject :=
  [obj "A-META-1.ndjson" (100 * 1048576);
   obj "A-META-2.ndjson" (50 * 1048576);
   obj "B-META-1.ndjson" (10 * 1048576)].

Definition unmarked_objects : list StorageObject :=
  [obj "A-META-1.ndjson" 2097152; obj "patient.ndjson" 1048576].

Definition json_headers : Headers :=
  [("Content-Type", "application/fhir+json")].

Definition issue_of (sev : option string) : Issue :=
  {| severity := sev; details := Some (Some "detail"); diagnostics := None |}.

Definition outcome_data (issues : list Issue) : StatusData :=
  {| resourceType := Some "OperationOutcome"; issue := Some issues |}.

Definition status_response (code : Z) (data : StatusData) : StatusResponse :=
  {| st_status := code; st_headers := json_headers; st_text := "";
     st_json := Some data |}.

(** The document [{"reportMsg": "3 imported"}]. *)
Definition dq : string := String (ascii_of_nat 34) "".
Definition report_document : string :=
  "{" ++ dq ++ "reportMsg" ++ dq ++ ": " ++ dq ++ "3 imported" ++ dq ++ "}".

Definition report_issue : Issue :=
  {| severity := Some "information"; details := None;
     diagnostics := Some report_document |}.

(** A server for the examples: one page of listing, every probe answered
    by [probe], every submission by [submit], the [n]-th status request by
    [status n].  The world counts the status requests. *)
Definition sample_env (listing : list Item)
           (probe : string -> Exn + HeadResponse)
           (submit : Exn + PostResponse)
           (status : nat -> Exn + StatusResponse) : Env nat :=
  {| storage_get := fun _ _ n =>
       (inr {| list_status := 200;
               list_json := Some {| items := Some listing;
                                    nextPageToken := None |} |}, n);
     session_head := fun u n => (probe u, n);
     session_post := fun _ _ _ n => (submit, n);
     requests_get := fun _ n => (status n, S n);
     load_report := fun d =>
       if (d =? report_document)%string then inr "3 imported"
       else inl JSONDecodeError |}.

Definition probe_ok (u : string) : Exn + HeadResponse :=
  inr {| head_status := 200; head_headers := json_headers |}.

Definition accepted : Exn + PostResponse :=
  inr {| post_status := 202;
         post_headers := [("Content-Location", "http://fhir-server:8080/fhir/$import-poll-status?job=1")];
         post_text := "" |}.

Definition sample_listing_one : list Item :=
  [{| item_name := "A-META-1.ndjson"; item_size := 100 |}].

Definition rejected_response : PostResponse :=
  {| post_status := 400; post_headers := json_headers;
     post_text := "bad request" |}.

Definition rejected : Exn + PostResponse := inr rejected_response.

Definition sample_url : string := BUCKET_BASE ++ "/A-META-1.ndjson".

Definition sample_payload : Payload :=
  {| p_resourceType := "Parameters";
     parameter :=
       [ValueString "inputFormat" "application/fhir+ndjson";
        ValueUri "inputSource" (BUCKET_BASE ++ "/");
        Part "storageDetail" [ValueCode "type" "https"];
        Part "input" [ValueCode "type" "A-META-1"; ValueUri "url" sample_url]] |}.

(** In progress twice, then the outcome given. *)
Definition then_outcome (issues : list Issue) (n : nat)
  : Exn + StatusResponse :=
  match n with
  | 0%nat | 1%nat => inr (status_response 202 (outcome_data []))
  | _ => inr (status_response 200 (outcome_data issues))
  end.

(** A server that answers every submission without a status location. *)
Definition rejecting_env : Env nat :=
  sample_env sample_listing_one probe_ok rejected (then_outcome []).

(** A server whose first status answer is the outcome given. *)
Definition terminal_env (issues : list Issue) : Env nat :=
  sample_env [] probe_ok accepted
             (fun _ => inr (status_response 200 (outcome_data issues))).

Definition mild_issues : list Issue :=
  [issue_of (Some "information"); issue_of (Some "warning")].


Definition failing_issues : list Issue :=
  [issue_of (Some "error"); issue_of (Some "warning")].

Definition sample_listing : list Item :=
  [{| item_name := "A-META-1.ndjson"; item_size := 100 |};
   {| item_name := "B-META-1.ndjson"; item_size := 50 |}].

(** Two datasets of one file each; every probe passes, the submission is
    accepted, and the job ends well after two rounds in progress. *)
Definition two_dataset_env : Env nat :=
  sample_env sample_listing probe_ok accepted (then_outcome [report_issue]).

Definition import_all : Args :=
  {| command := CmdImport; only := None; skip_legacy := false |}.

(** ** Further vocabulary and samples *)

(** A page of the listing that is read without error: no 4xx or 5xx
    status, and a body that decodes. *)
Definition page_ok (resp : ListResponse) (data : ListData) : Prop :=
  (400 <=? list_status resp) && (list_status resp <? 600) = false /\
  list_json resp = Some data.

(** Asked page after page from world [w], starting with [page_token], the
    storage service serves the pages of the list, each naming the next but
    the last, and is then in world [w']. *)
Inductive pages {W : Type} (env : Env W) (api_url : string)
  : option string -> W -> list ListData -> W -> Prop :=
| pages_last page_token (w w' : W) resp data :
    storage_get env api_url page_token w = (inr resp, w') ->
    page_ok resp data ->
    nextPageToken data = None ->
    pages env api_url page_token w [data] w'
| pages_next page_token (w w1 w2 : W) resp data next rest :
    storage_get env api_url page_token w = (inr resp, w1) ->
    page_ok resp data ->
    nextPageToken data = Some next ->
    pages env api_url (Some next) w1 rest w2 ->
    pages env api_url page_token w (data :: rest) w2.

(** The address [list_ndjson_objects] asks for the objects of a bucket. *)
Definition storage_api_url (bucket_base : string) : string :=
  "https://storage.googleapis.com/storage/v1/b/"
  ++ PyStr.last_segment "/" bucket_base ++ "/o".

(** What the listing keeps of an object: it lies under the bucket base and
    its name ends in [.ndjson]. *)
Definition listed_under (bucket_base : string) (o : StorageObject) : Prop :=
  exists name,
    url o = bucket_base ++ "/" ++ name /\
    PyStr.endswith name NDJSON = true.

(** The page tokens of the listing requests of a trace. *)
Fixpoint listings (t : list Event) : list (option string) :=
  match t with
  | [] => []
  | EvList _ tok _ :: t' => tok :: listings t'
  | _ :: t' => listings t'
  end.

(** Requests to the storage service. *)
Definition is_listing (e : Event) : bool :=
  match e with EvList _ _ _ => true | _ => false end.

(** The sleeps of a trace. *)
Fixpoint sleeps (t : list Event) : list Z :=
  match t with
  | [] => []
  | EvSleep n :: t' => n :: sleeps t'
  | _ :: t' => sleeps t'
  end.

(** A status response that the poller answers with exit code 1: a content
    type without [json], or a decodable body with a status other than 200
    and 202, or status 200 with a resource type other than
    [OperationOutcome]. *)
Definition protocol_error (resp : StatusResponse) : Prop :=
  PyStr.contains "json"
    (headers_get_default (st_headers resp) "Content-Type" "") = false \/
  exists data,
    st_json resp = Some data /\
    st_status resp <> 202 /\
    (st_status resp <> 200 \/ resourceType data <> Some "OperationOutcome").

(** The body of the submission for the URLs given. *)
Definition import_payload (valid_urls : list string) : Payload :=
  {| p_resourceType := "Parameters";
     parameter := base_parameters ++ map input_parameter valid_urls |}.

(** The candidates of a submission: the URLs that end in [.ndjson]. *)
Definition candidates (resource_urls : list string) : list string :=
  filter (fun u => PyStr.endswith u NDJSON) resource_urls.

(** The names of a dictionary that the filters of the command line let
    through. *)
Definition selected (a : Args) (datasets : PyDict.dict DatasetInfo)
  : PyDict.dict DatasetInfo :=
  filter (fun kv => negb (skipped a (fst kv))) datasets.

Definition nested_objects : list StorageObject :=
  [obj "A-META-1.ndjson" 1; obj "XA-META-1.ndjson" 2].

Definition page_one : ListData :=
  {| items := Some [{| item_name := "A-META-1.ndjson"; item_size := 100 |};
                    {| item_name := "README.md"; item_size := 7 |}];
     nextPageToken := Some "p2" |}.

Definition page_two : ListData :=
  {| items := Some [{| item_name := "B-META-1.ndjson"; item_size := 50 |}];
     nextPageToken := None |}.

Definition two_pages (tok : option string) : ListResponse :=
  {| list_status := 200;
     list_json := Some (match tok with None => page_one | Some _ => page_two end) |}.

Definition listed_pair : list StorageObject :=
  [obj "A-META-1.ndjson" 100; obj "B-META-1.ndjson" 50].

(** A storage service with two pages; nothing else is ever reached. *)
Definition paged_env : Env nat :=
  {| storage_get := fun _ tok n => (inr (two_pages tok), S n);
     session_head := fun u n => (probe_ok u, n);
     session_post := fun _ _ _ n => (accepted, n);
     requests_get := fun _ n => (then_outcome [report_issue] n, S n);
     load_report := fun _ => inl JSONDecodeError |}.

(** A storage service that refuses the listing. *)
Definition forbidden_env : Env nat :=
  {| storage_get := fun _ _ n =>
       (inr {| list_status := 403; list_json := None |}, n);
     session_head := fun u n => (probe_ok u, n);
     session_post := fun _ _ _ n => (accepted, n);
     requests_get := fun _ n => (then_outcome [] n, S n);
     load_report := fun _ => inl JSONDecodeError |}.

Definition forbidden_page : ListResponse :=
  {| list_status := 403; list_json := None |}.

(** A server whose [$import] endpoint cannot be reached. *)
Definition broken_post_env : Env nat :=
  sample_env sample_listing_one probe_ok
             (inl (RequestException "connection reset")) (then_outcome []).

(** A server on which no object can be fetched. *)
Definition unreachable_env : Env nat :=
  sample_env sample_listing
             (fun _ => inr {| head_status := 404; head_headers := [] |})
             accepted (then_outcome []).

Definition list_args : Args :=
  {| command := CmdList; only := None; skip_legacy := false |}.

Definition waiting_response : StatusResponse :=
  status_response 202 (outcome_data []).

(** What a run shows of the classification of the job: [Succeeded] is
    reported by the completion line, with exit code 0 and no failure line;
    [Failed] is reported by the failure line, without completion line. *)
Definition reported_succeeded {W : Type} (name : string) (r : Run W unit)
  : Prop :=
  outcome r = SysExit 0 /\
  In (EvPrint (MsgImportCompleted name)) (trace r) /\
  ~ In (EvPrint (MsgImportFailed name)) (trace r).

Definition reported_failed {W : Type} (name : string) (r : Run W unit)
  : Prop :=
  In (EvPrint (MsgImportFailed name)) (trace r) /\
  ~ In (EvPrint (MsgImportCompleted name)) (trace r).

(** The embedded report of an outcome, when one is selected, decodes. *)
Definition report_decodes {W : Type} (env : Env W) (issues : list Issue)
  : Prop :=
  forall d, embedded_report issues = Some d ->
            exists report, load_report env d = inr report.

(** The answers the service gives when it is asked for the URLs one after
    the other, starting in world [w]. *)
Fixpoint head_answers {W : Type} (env : Env W) (urls : list string) (w : W)
  : list (Exn + HeadResponse) :=
  match urls with
  | [] => []
  | u :: rest =>
      fst (session_head env u w)
      :: head_answers env rest (snd (session_head env u w))
  end.

(** The grouping as the specification words it.  The relative path of an
    object is its URL with the bucket-base prefix stripped. *)
Definition spec_relative_path (u : string) : option string :=
  let base := BUCKET_BASE ++ "/" in
  if String.prefix base u
  then Some (substring (String.length base)
                       (String.length u - String.length base) u)
  else None.

(** The path truncated at the end of the marker token: the characters up
    through and including its first occurrence.  There is no such name
    when the marker is absent. *)
Fixpoint spec_cut_at_marker (p : string) : option string :=
  if String.prefix MARKER p then Some MARKER
  else match p with
       | EmptyString => None
       | String c p' => option_map (String c) (spec_cut_at_marker p')
       end.

Definition spec_derived_name (o : StorageObject) : option string :=
  match spec_relative_path (url o) with
  | Some p => spec_cut_at_marker p
  | None => None
  end.

(** The distinct derived names present in the input, in lexicographic
    order. *)
Definition spec_dataset_names (objects : list StorageObject) : list string :=
  PyList.sorted
    (PyList.set_of
       (flat_map (fun o => match spec_derived_name o with
                           | Some n => [n]
                           | None => []
                           end) objects)).

(** A single informational issue whose diagnostics mention [reportMsg]
    without being a JSON document. *)
Definition crash_issue : Issue :=
  {| severity := Some "information"; details := None;
     diagnostics := Some "reportMsg pending" |}.

(** Probes that answer by the look of the URL. *)
Definition mixed_probe (u : string) : Exn + HeadResponse :=
  if PyStr.contains "gone" u
  then inr {| head_status := 404; head_headers := json_headers |}
  else if PyStr.contains "page" u
  then inr {| head_status := 200;
              head_headers := [("Content-Type", "text/html")] |}
  else if PyStr.contains "down" u
  then inl (RequestException "timed out")
  else inr {| head_status := 200; head_headers := json_headers |}.

Definition mixed_env : Env nat :=
  sample_env [] mixed_probe accepted (then_outcome []).

Definition mixed_urls : list string :=
  ["a/Patient.ndjson"; "a/gone.ndjson"; "a/page.ndjson"; "a/down.ndjson";
   "a/Specimen.ndjson"].

(** * Properties *)

(** ** Strings *)

Section StringFacts.

Example replace_all : PyStr.replace "a/b/c" "/" "" = "abc".
Proof. reflexivity. Qed.

Example replace_left_to_right : PyStr.replace "aaa.ndjson" "aa" "b" = "ba.ndjson".
Proof. reflexivity. Qed.

Example find_first : PyStr.find "x-META-META" "META" = 2.
Proof. reflexivity. Qed.

Example find_none : PyStr.find "patient.ndjson" "META" = -1.
Proof. reflexivity. Qed.

Example slice_short : PyStr.slice_to "ab" 3 = "ab".
Proof. reflexivity. Qed.

Example slice_negative : PyStr.slice_to "abcdef" (-2) = "abcd".
Proof. reflexivity. Qed.

Example endswith_suffix :
  PyStr.endswith "Patient.ndjson" ".ndjson" = true /\
  PyStr.endswith "Patient.ndjson.gz" ".ndjson" = false /\
  PyStr.endswith "json" ".ndjson" = false.
Proof. repeat split. Qed.

Example resource_type_of_url :
  resource_type_of (BUCKET_BASE ++ "/R5/TCGA-META/Patient.ndjson") = "Patient".
Proof. reflexivity. Qed.

Example header_names_ignore_case :
  headers_get [("content-location", "here")] "Content-Location" = Some "here".
Proof. reflexivity. Qed.

Example grouping_scenario :
  map (fun kv => (fst kv, Qred (ds_size (snd kv)),
                  List.length (ds_objects (snd kv))))
      (group_objects sample_objects)
  = [("A-META", 150 # 1, 2%nat); ("B-META", 10 # 1, 1%nat)]%Q.
Proof. vm_compute. reflexivity. Qed.

Lemma ascii_lt_trans a b c :
  Ascii.compare a b = Lt -> Ascii.compare b c = Lt -> Ascii.compare a c = Lt.
Proof.
  unfold Ascii.compare. rewrite !N.compare_lt_iff. apply N.lt_trans.
Qed.

Lemma string_lt_trans : forall a b c,
  String.compare a b = Lt -> String.compare b c = Lt -> String.compare a c = Lt.
Proof.
  induction a as [|x a IH]; intros [|y b] [|z c]; simpl; try congruence.
  destruct (Ascii.compare x y) eqn:Hxy; try discriminate.
  - apply Ascii.compare_eq_iff in Hxy. subst y.
    destruct (Ascii.compare x z); try congruence. apply IH.
  - destruct (Ascii.compare y z) eqn:Hyz; try discriminate; intros _ _.
    + apply Ascii.compare_eq_iff in Hyz. subst z. now rewrite Hxy.
    + now rewrite (ascii_lt_trans _ _ _ Hxy Hyz).
Qed.

Lemma prefix_split : forall a s,
  String.prefix a s = true -> exists post, s = a ++ post.
Proof.
  induction a as [|x a IH]; intros s H.
  - exists s. reflexivity.
  - destruct s as [|y s]; simpl in H; [discriminate|].
    destruct (ascii_dec x y) as [->|]; [|discriminate].
    destruct (IH _ H) as [post ->]. now exists post.
Qed.

Lemma prefix_app : forall a post, String.prefix a (a ++ post) = true.
Proof.
  induction a as [|x a IH]; intros post; simpl.
  - now destruct post.
  - destruct (ascii_dec x x); [apply IH|congruence].
Qed.

Lemma substring_0_app : forall a post,
  substring 0 (String.length a) (a ++ post) = a.
Proof.
  induction a as [|x a IH]; intros post; simpl.
  - now destruct post.
  - now rewrite IH.
Qed.

Lemma substring_0_all : forall s m,
  (String.length s <= m)%nat -> substring 0 m s = s.
Proof.
  induction s as [|x s IH]; intros m H; simpl in *.
  - now destruct m.
  - destruct m as [|m]; [lia|]. rewrite IH; [reflexivity|lia].
Qed.

Lemma length_app : forall a b,
  String.length (a ++ b) = (String.length a + String.length b)%nat.
Proof. induction a; intros; simpl; [|rewrite IHa]; reflexivity. Qed.

(** A successful [find] splits the string at the first occurrence. *)
Lemma find_from_found : forall sub s i n,
  PyStr.find_from sub s i = n -> n <> -1 ->
  exists pre post,
    s = pre ++ sub ++ post /\ n = i + Z.of_nat (String.length pre).
Proof.
  intros sub s. induction s as [|c s IH]; intros i n Hf Hn.
  - cbn [PyStr.find_from] in Hf.
    destruct (String.prefix sub "") eqn:Hp; [|congruence].
    destruct (prefix_split _ _ Hp) as [post E].
    exists "", post. split; [exact E|simpl; lia].
  - cbn [PyStr.find_from] in Hf.
    destruct (String.prefix sub (String c s)) eqn:Hp.
    + destruct (prefix_split _ _ Hp) as [post E].
      exists "", post. split; [exact E|simpl; lia].
    + destruct (IH _ _ Hf Hn) as (pre & post & E & En).
      exists (String c pre), post. split; [simpl; now rewrite E|].
      simpl String.length. lia.
Qed.

Lemma slice_to_prefix a post :
  PyStr.slice_to (a ++ post) (Z.of_nat (String.length a)) = a.
Proof.
  unfold PyStr.slice_to.
  assert (H : (Z.of_nat (String.length a) <? 0) = false)
    by (apply Z.ltb_ge; lia).
  rewrite H, length_app, Z.min_l by lia.
  rewrite Nat2Z.id. apply substring_0_app.
Qed.

End StringFacts.

(** ** The dataset grouper *)

Section Grouper.

Lemma str_lt_trans a b c : str_lt a b -> str_lt b c -> str_lt a c.
Proof.
  unfold str_lt, String.ltb. intros H1 H2.
  destruct (String.compare a b) eqn:E1; try discriminate.
  destruct (String.compare b c) eqn:E2; try discriminate.
  now rewrite (string_lt_trans _ _ _ E1 E2).
Qed.

Lemma leb_neq_lt a b : (a <=? b)%string = true -> a <> b -> str_lt a b.
Proof.
  unfold str_lt, String.leb, String.ltb. intros H Hn.
  destruct (String.compare a b) eqn:E; try discriminate; [|reflexivity].
  apply String.compare_eq_iff in E. contradiction.
Qed.

Lemma not_leb_lt a b : (a <=? b)%string = false -> str_lt b a.
Proof.
  unfold str_lt, String.leb, String.ltb. rewrite (String.compare_antisym b a).
  destruct (String.compare a b); simpl; congruence.
Qed.

Lemma insert_sorted_In x y l :
  In y (PyList.insert_sorted x l) <-> y = x \/ In y l.
Proof.
  induction l as [|z l IH]; simpl.
  - intuition.
  - destruct (x <=? z)%string; simpl; [intuition|]. rewrite IH. intuition.
Qed.

Lemma sorted_In y l : In y (PyList.sorted l) <-> In y l.
Proof.
  induction l as [|x l IH]; simpl; [tauto|].
  rewrite insert_sorted_In, IH. intuition.
Qed.

Lemma insert_sorted_strict x l :
  StronglySorted str_lt l -> ~ In x l ->
  StronglySorted str_lt (PyList.insert_sorted x l).
Proof.
  induction 1 as [|y l Hs IH Hall]; intros Hx; simpl.
  - repeat constructor.
  - destruct (x <=? y)%string eqn:E.
    + assert (Hxy : str_lt x y).
      { apply leb_neq_lt; [exact E|]. intros ->. apply Hx. now left. }
      constructor; [now constructor|]. constructor; [exact Hxy|].
      eapply Forall_impl; [|exact Hall]. intros z. now apply str_lt_trans.
    + constructor.
      * apply IH. intros Hin. apply Hx. now right.
      * apply Forall_forall. intros z Hz. apply insert_sorted_In in Hz.
        destruct Hz as [->|Hz]; [now apply not_leb_lt|].
        rewrite Forall_forall in Hall. now apply Hall.
Qed.

Lemma sorted_strict l : NoDup l -> StronglySorted str_lt (PyList.sorted l).
Proof.
  induction 1 as [|x l Hx Hnd IH]; simpl; [constructor|].
  apply insert_sorted_strict; [exact IH|]. now rewrite sorted_In.
Qed.

Lemma strict_NoDup l : StronglySorted str_lt l -> NoDup l.
Proof.
  induction 1 as [|x l Hs IH Hall]; constructor; [|exact IH].
  intros Hin. rewrite Forall_forall in Hall. specialize (Hall _ Hin).
  unfold str_lt, String.ltb in Hall.
  destruct (String.compare x x) eqn:E; try discriminate.
  pose proof (String.compare_antisym x x) as A. rewrite E in A. discriminate.
Qed.

Context {V : Type}.

Lemma keys_set (d : PyDict.dict V) k v :
  PyDict.keys (PyDict.set d k v) =
  if in_dec string_dec k (PyDict.keys d) then PyDict.keys d
  else (PyDict.keys d ++ [k])%list.
Proof.
  unfold PyDict.keys.
  induction d as [|[k' v'] d IH]; simpl; [reflexivity|].
  destruct (String.eqb_spec k' k) as [->|Hne]; simpl.
  - destruct (string_dec k k); [reflexivity|congruence].
  - rewrite IH. destruct (string_dec k' k); [contradiction|].
    destruct (in_dec string_dec k (map fst d)); reflexivity.
Qed.

Lemma keys_fold (f : string -> V) ks : forall d,
  NoDup ks -> (forall k, In k ks -> ~ In k (PyDict.keys d)) ->
  PyDict.keys (fold_left (fun d k => PyDict.set d k (f k)) ks d)
  = (PyDict.keys d ++ ks)%list.
Proof.
  induction ks as [|k ks IH]; intros d Hnd Hfresh; simpl.
  - now rewrite app_nil_r.
  - inversion Hnd as [|? ? Hk Hnd']; subst.
    assert (Hkeys : PyDict.keys (PyDict.set d k (f k))
                    = (PyDict.keys d ++ [k])%list).
    { rewrite keys_set.
      destruct (in_dec string_dec k (PyDict.keys d)) as [Hin|]; [|reflexivity].
      exfalso. apply (Hfresh k); [now left|exact Hin]. }
    rewrite IH; [rewrite Hkeys, <- app_assoc; reflexivity|exact Hnd'|].
    intros k' Hk' Hin. rewrite Hkeys in Hin. apply in_app_or in Hin.
    destruct Hin as [Hin|[->|[]]]; [|contradiction].
    apply (Hfresh k'); [now right|exact Hin].
Qed.

Lemma set_values (f : string -> V) (d : PyDict.dict V) k :
  (forall k' v, In (k', v) d -> v = f k') ->
  forall k' v, In (k', v) (PyDict.set d k (f k)) -> v = f k'.
Proof.
  induction d as [|[k0 v0] d IH]; intros Hd k' v; simpl.
  - intros [E|[]]. now inversion E.
  - destruct (String.eqb_spec k0 k) as [->|Hne]; simpl.
    + intros [E|Hin]; [now inversion E|]. apply Hd. now right.
    + intros [E|Hin]; [apply Hd; now left|].
      apply IH; [|exact Hin]. intros ? ? ?. apply Hd. now right.
Qed.

Lemma fold_values (f : string -> V) ks : forall d,
  (forall k v, In (k, v) d -> v = f k) ->
  forall k v,
    In (k, v) (fold_left (fun d k => PyDict.set d k (f k)) ks d) -> v = f k.
Proof.
  induction ks as [|k ks IH]; intros d Hd; simpl; [exact Hd|].
  apply IH. now apply set_values.
Qed.

End Grouper.

Section GrouperClaims.

Lemma find_from_absent_3 p :
  PyStr.contains MARKER p = false ->
  derived_name p = substring 0 3 p.
Proof.
  unfold PyStr.contains, derived_name. intros H.
  apply negb_false_iff, Z.eqb_eq in H. rewrite H.
  unfold PyStr.slice_to. simpl Z.add. cbn [Z.ltb Z.compare].
  destruct (Z.min_spec 3 (Z.of_nat (String.length p))) as [[Hlt ->]|[Hge ->]].
  - reflexivity.
  - rewrite Nat2Z.id, !substring_0_all; [reflexivity|lia|lia].
Qed.

(** When the marker occurs, the derived name is the path up to the end
    of its first occurrence. *)
Lemma derived_name_at_marker p :
  PyStr.contains MARKER p = true ->
  exists pre post,
    p = pre ++ MARKER ++ post /\
    PyStr.find p MARKER = Z.of_nat (String.length pre) /\
    derived_name p = pre ++ MARKER.
Proof.
  unfold PyStr.contains. intros H.
  apply negb_true_iff, Z.eqb_neq in H.
  destruct (find_from_found MARKER p 0 _ eq_refl H) as (pre & post & E & En).
  exists pre, post. split; [exact E|]. split; [exact En|].
  unfold derived_name. unfold PyStr.find. rewrite En.
  rewrite E at 1. rewrite Z.add_0_l, <- Nat2Z.inj_add.
  replace (pre ++ MARKER ++ post) with ((pre ++ MARKER) ++ post).
  - rewrite <- length_app. apply slice_to_prefix.
  - clear. induction pre; simpl; [reflexivity|now rewrite IHpre].
Qed.

Lemma projects_In objects name :
  In name (projects objects) <->
  exists o, In o objects /\ name = derived_name (relative_path o).
Proof.
  unfold projects, PyList.set_of. rewrite sorted_In, nodup_In, map_map, in_map_iff.
  split; intros (o & H1 & H2); exists o; intuition.
Qed.

Lemma group_objects_keys objects :
  PyDict.keys (group_objects objects) = projects objects.
Proof.
  unfold group_objects.
  rewrite (keys_fold (dataset_info objects)); [reflexivity| |intros ? ? []].
  apply strict_NoDup, sorted_strict, NoDup_nodup.
Qed.

(** The keys of the grouper's result are strictly ascending and are the
    values the slice of the script takes on the relative paths; on a path
    that contains the marker that value is the path cut at the end of the
    marker's first occurrence. *)
Lemma grouper_keys_sorted_distinct_names (objects : list StorageObject) :
  StronglySorted str_lt (PyDict.keys (group_objects objects)) /\
  (forall name,
     In name (PyDict.keys (group_objects objects)) <->
     exists o, In o objects /\ name = derived_name (relative_path o)) /\
  (forall o,
     In o objects -> PyStr.contains MARKER (relative_path o) = true ->
     exists pre post,
       relative_path o = pre ++ MARKER ++ post /\
       PyStr.find (relative_path o) MARKER = Z.of_nat (String.length pre) /\
       derived_name (relative_path o) = pre ++ MARKER).
Proof.
  rewrite group_objects_keys. split; [|split].
  - apply sorted_strict, NoDup_nodup.
  - apply projects_In.
  - intros o _ Hm. now apply derived_name_at_marker.
Qed.

(** Whatever the path, a path without the marker contributes its first
    three characters as a dataset name. *)
Lemma unmarked_path_is_grouped objects o :
  In o objects ->
  PyStr.contains MARKER (relative_path o) = false ->
  In (substring 0 3 (relative_path o)) (PyDict.keys (group_objects objects)).
Proof.
  intros Hin Hm. rewrite group_objects_keys, projects_In.
  exists o. split; [exact Hin|]. symmetry. now apply find_from_absent_3.
Qed.

(** C4: the object [patient.ndjson] has no marker in its relative path;
    [find] answers -1, the slice keeps three characters, and the name
    [pat] is a key of the result, with the object filed under it. *)
Theorem unmarked_name_is_kept :
  PyStr.contains MARKER (relative_path (obj "patient.ndjson" 1048576)) = false /\
  derived_name (relative_path (obj "patient.ndjson" 1048576)) = "pat" /\
  PyDict.keys (group_objects unmarked_objects) = ["A-META"; "pat"] /\
  option_map ds_objects (PyDict.get (group_objects unmarked_objects) "pat")
  = Some [BUCKET_BASE ++ "/patient.ndjson"].
Proof. vm_compute. repeat split. Qed.

Lemma sum_sizes_total l : sum_sizes l = total_bytes l.
Proof.
  unfold sum_sizes, total_bytes.
  assert (H : forall acc, fold_left (fun a o => a + size o) l acc
                          = acc + fold_right Z.add 0 (map size l)).
  { induction l as [|o l IH]; intros acc; simpl; [lia|]. rewrite IH. lia. }
  rewrite H. lia.
Qed.

(** C9: a dataset's objects are the listed objects whose URL contains its
    name, in listing order, and its size is the sum of their byte sizes
    divided by 1024 * 1024 (as an exact quotient). *)
Theorem dataset_size_in_megabytes objects name info :
  In (name, info) (group_objects objects) ->
  ds_objects info = map url (matching name objects) /\
  (ds_size info ==
   inject_Z (total_bytes (matching name objects)) / inject_Z (1024 * 1024))%Q.
Proof.
  intros Hin.
  assert (E : info = dataset_info objects name).
  { unfold group_objects in Hin.
    eapply (fold_values (dataset_info objects)); [|exact Hin]. intros ? ? []. }
  subst info. simpl. rewrite sum_sizes_total. split; reflexivity.
Qed.

Lemma dataset_size_in_megabytes_witness :
  ds_objects (dataset_info sample_objects "A-META")
  = [BUCKET_BASE ++ "/A-META-1.ndjson"; BUCKET_BASE ++ "/A-META-2.ndjson"] /\
  (ds_size (dataset_info sample_objects "A-META") == 150 # 1)%Q.
Proof.
  destruct (dataset_size_in_megabytes sample_objects "A-META"
              (dataset_info sample_objects "A-META")) as [H1 H2].
  - vm_compute. left. reflexivity.
  - split.
    + rewrite H1. vm_compute. reflexivity.
    + rewrite H2. vm_compute. reflexivity.
Defined.

End GrouperClaims.

(** ** The run monad *)

Section RunFacts.
Context {W : Type}.

Lemma bind_ret {A B} (m : M W A) (f : A -> M W B) (w : W) (a : A) :
  outcome (m w) = Ret a ->
  bind m f w =
  {| outcome := outcome (f a (world (m w)));
     world := world (f a (world (m w)));
     trace := trace (m w) ++ trace (f a (world (m w))) |}.
Proof. intros H. unfold bind. now rewrite H. Qed.

Lemma bind_trace_prefix {A B} (m : M W A) (f : A -> M W B) (w : W) :
  exists t, trace (bind m f w) = (trace (m w) ++ t)%list.
Proof.
  unfold bind. destruct (outcome (m w)); simpl;
    try (exists []; now rewrite app_nil_r).
  eexists. reflexivity.
Qed.

Lemma bind_step {A B} (m : M W A) (f : A -> M W B) (w w1 : W) a t :
  m w = {| outcome := Ret a; world := w1; trace := t |} ->
  bind m f w = after t (f a w1).
Proof. intros H. unfold bind. rewrite H. reflexivity. Qed.

Lemma bind_ret_l {A B} (a : A) (f : A -> M W B) (w : W) :
  bind (ret a) f w = f a w.
Proof. unfold bind, ret. simpl. now destruct (f a w). Qed.

Lemma bind_print {B} (m : Msg) (f : unit -> M W B) (w : W) :
  bind (print m) f w = after [EvPrint m] (f tt w).
Proof. reflexivity. Qed.

Lemma after_after {A} (t1 t2 : list Event) (r : Run W A) :
  after t1 (after t2 r) = after (t1 ++ t2) r.
Proof. unfold after. simpl. now rewrite app_assoc. Qed.

Lemma after_nil {A} (r : Run W A) : after [] r = r.
Proof. now destruct r. Qed.

(** Once the process exits, nothing that follows runs. *)
Lemma bind_exit {A B} (m : M W A) (f : A -> M W B) (w : W) (code : Z) :
  outcome (m w) = SysExit code ->
  outcome (bind m f w) = SysExit code /\
  trace (bind m f w) = trace (m w) /\
  world (bind m f w) = world (m w).
Proof. intros H. unfold bind. rewrite H. simpl. auto. Qed.

End RunFacts.

(** ** The status poller *)

Section Poller.
Context {W : Type} (env : Env W).

Lemma check_issues_run issues : forall ok (w : W),
  check_issues issues ok w =
  {| outcome := Ret (ok && no_error issues); world := w;
     trace := issue_lines issues |}.
Proof.
  induction issues as [|i issues IH]; intros ok w; simpl.
  - unfold ret. now rewrite andb_true_r.
  - unfold bind, print, emit. simpl. rewrite IH. simpl.
    now rewrite andb_assoc.
Qed.

Lemma handle_outcome_failed name data (w : W) :
  no_error (issues_of data) = false ->
  handle_outcome env name data w =
  {| outcome := SysExit 0; world := w;
     trace := issue_lines (issues_of data) ++
              [EvPrint (MsgPayload data); EvPrint (MsgImportFailed name)] |}.
Proof.
  intros H. unfold handle_outcome. fold (issues_of data).
  unfold bind at 1. rewrite check_issues_run. simpl. rewrite H. reflexivity.
Qed.

Lemma handle_outcome_passed name data (w : W) :
  no_error (issues_of data) = true ->
  handle_outcome env name data w =
  match embedded_report (issues_of data) with
  | Some d =>
      match load_report env d with
      | inr report =>
          {| outcome := SysExit 0; world := w;
             trace := issue_lines (issues_of data) ++
                      [EvPrint (MsgReport name report);
                       EvPrint (MsgImportCompleted name)] |}
      | inl e =>
          {| outcome := Uncaught e; world := w;
             trace := issue_lines (issues_of data) ++ [] |}
      end
  | None =>
      {| outcome := SysExit 0; world := w;
         trace := issue_lines (issues_of data) ++
                  [EvPrint (MsgPayload data);
                   EvPrint (MsgImportCompleted name)] |}
  end.
Proof.
  intros H. unfold handle_outcome. fold (issues_of data).
  unfold bind at 1. rewrite check_issues_run. simpl. rewrite H. simpl.
  destruct (embedded_report (issues_of data)) as [d|]; [|reflexivity].
  unfold bind, or_raise. destruct (load_report env d); reflexivity.
Qed.

(** Handling an outcome never returns. *)
Lemma handle_outcome_never name data (w : W) :
  forall a, outcome (handle_outcome env name data w) <> Ret a.
Proof.
  intros a. destruct (no_error (issues_of data)) eqn:E.
  - rewrite (handle_outcome_passed name data w E).
    destruct (embedded_report (issues_of data));
      [destruct (load_report env s)|]; discriminate.
  - rewrite (handle_outcome_failed name data w E). discriminate.
Qed.

(** A terminal outcome sends one turn of the loop into [handle_outcome]. *)
Lemma poll_once_terminal name u (w w' : W) resp data :
  requests_get env u w = (inr resp, w') ->
  terminal_outcome resp data ->
  poll_once env name u w
  = after [EvGet u (inr resp)] (handle_outcome env name data w').
Proof.
  intros Hget (Hct & Hst & Hjs & Hrt).
  unfold poll_once.
  rewrite (bind_step _ _ w w' (inr resp) [EvGet u (inr resp)])
    by (unfold get, request; now rewrite Hget).
  f_equal. cbn [or_raise]. rewrite bind_ret_l, Hct. cbn [negb].
  rewrite Hjs, bind_ret_l, Hst, Hrt. reflexivity.
Qed.

Lemma not_in_issue_lines issues m :
  (forall s t, m <> MsgIssue s t) -> ~ In (EvPrint m) (issue_lines issues).
Proof.
  intros Hm Hin. unfold issue_lines in Hin. apply in_map_iff in Hin.
  destruct Hin as (i & E & _). inversion E. eapply Hm. eauto.
Qed.

Lemma known_below_error i :
  known_severity i ->
  (below_error i <-> (issue_severity i =? "error")%string = false).
Proof.
  intros (s & r & Hs & Hr). unfold below_error, issue_severity. rewrite Hs.
  unfold severity_rank in Hr.
  destruct (String.eqb_spec s "information") as [->|H1].
  { split; [reflexivity|]. intros _. exists "information", 0%nat. auto. }
  destruct (String.eqb_spec s "warning") as [->|H2].
  { split; [reflexivity|]. intros _. exists "warning", 1%nat. auto. }
  destruct (String.eqb_spec s "error") as [->|H3]; [|discriminate].
  split; [|discriminate].
  intros (s' & r' & Hs' & Hr' & Hlt). inversion Hs'; subst s'.
  vm_compute in Hr'. inversion Hr'. subst r'. lia.
Qed.

Lemma no_error_below issues :
  Forall known_severity issues ->
  (no_error issues = true <-> Forall below_error issues).
Proof.
  unfold no_error. induction 1 as [|i issues Hk _ IH]; simpl.
  - split; auto.
  - rewrite andb_true_iff, IH, negb_true_iff, <- (known_below_error i Hk).
    split; [intros [? ?]; now constructor|now inversion 1].
Qed.


(** A terminal outcome without error issues is reported as completed and
    ends the process with exit code 0, provided the embedded report, if
    one is selected, decodes. *)
Lemma passed_outcome_is_reported name u (w w' : W) resp data :
  requests_get env u w = (inr resp, w') ->
  terminal_outcome resp data ->
  no_error (issues_of data) = true ->
  (forall d, embedded_report (issues_of data) = Some d ->
             exists report, load_report env d = inr report) ->
  outcome (poll_once env name u w) = SysExit 0 /\
  In (EvPrint (MsgImportCompleted name)) (trace (poll_once env name u w)).
Proof.
  intros Hget Hterm Hok Hrep.
  rewrite (poll_once_terminal name u w w' resp data Hget Hterm).
  rewrite (handle_outcome_passed name data w' Hok).
  destruct (embedded_report (issues_of data)) as [d|].
  - destruct (Hrep d eq_refl) as [report ->]. split; [reflexivity|].
    unfold after. cbn [trace app]. apply in_cons, in_or_app. right.
    simpl. auto.
  - split; [reflexivity|].
    unfold after. cbn [trace app]. apply in_cons, in_or_app. right.
    simpl. auto.
Qed.




(** Whatever the issues, a terminal outcome that is classified [Failed]
    ends the process with exit code 0. *)
Lemma failed_outcome_exit_code name u (w w' : W) resp data :
  requests_get env u w = (inr resp, w') ->
  terminal_outcome resp data ->
  no_error (issues_of data) = false ->
  outcome (poll_once env name u w) = SysExit 0.
Proof.
  intros Hget Hterm Hbad.
  rewrite (poll_once_terminal name u w w' resp data Hget Hterm).
  now rewrite (handle_outcome_failed name data w' Hbad).
Qed.

(** When the selected report does not decode, the exception escapes: the
    completion is not reported. *)
Lemma undecodable_report_raises name u (w w' : W) resp data d e :
  requests_get env u w = (inr resp, w') ->
  terminal_outcome resp data ->
  no_error (issues_of data) = true ->
  embedded_report (issues_of data) = Some d ->
  load_report env d = inl e ->
  outcome (poll_once env name u w) = Uncaught e.
Proof.
  intros Hget Hterm Hok Hd He.
  rewrite (poll_once_terminal name u w w' resp data Hget Hterm).
  rewrite (handle_outcome_passed name data w' Hok), Hd, He. reflexivity.
Qed.

(** A response in progress makes the loop sleep and go round again. *)
Lemma poll_once_in_progress name u (w w' : W) resp data :
  requests_get env u w = (inr resp, w') ->
  in_progress resp data ->
  poll_once env name u w =
  {| outcome := Ret tt; world := w';
     trace := [EvGet u (inr resp); EvPrint (MsgInProgress name data);
               EvSleep POLL_INTERVAL] |}.
Proof.
  intros Hget (Hct & Hjs & Hst).
  unfold poll_once.
  rewrite (bind_step _ _ w w' (inr resp) [EvGet u (inr resp)])
    by (unfold get, request; now rewrite Hget).
  cbn [or_raise]. rewrite bind_ret_l, Hct. cbn [negb].
  rewrite Hjs, bind_ret_l, Hst. reflexivity.
Qed.

(** With more fuel than the server has rounds in progress, the loop gets
    to the terminal outcome: it has slept once per round and asked for
    the status URL once more than that. *)
Lemma poll_import_status_reaches_outcome name u pending :
  forall (w w1 w2 : W) resp data fuel,
    waits env u w pending w1 ->
    requests_get env u w1 = (inr resp, w2) ->
    terminal_outcome resp data ->
    (List.length pending < fuel)%nat ->
    exists t,
      poll_import_status env fuel name u w
      = after t (handle_outcome env name data w2) /\
      polls t = repeat u (S (List.length pending)) /\
      posts t = [].
Proof.
  induction pending as [|r pending IH]; intros w w1 w2 resp data fuel Hw Hget Hterm Hfuel;
    (destruct fuel as [|fuel]; [simpl in Hfuel; lia|]);
    inversion Hw; subst; cbn [poll_import_status].
  - exists [EvGet u (inr resp)].
    split; [|split; reflexivity].
    unfold bind. rewrite (poll_once_terminal name u w1 w2 resp data Hget Hterm).
    unfold after. cbn [outcome world trace app].
    pose proof (handle_outcome_never name data w2) as Hn.
    destruct (handle_outcome env name data w2) as [o w3 t3].
    cbn in *. destruct o; try reflexivity. now elim (Hn a).
  - match goal with
    | Hg : requests_get env u w = _, Hp : in_progress _ _,
      Hr : waits env u _ pending _ |- _ =>
        rewrite (bind_step _ _ _ _ _ _ (poll_once_in_progress name u _ _ _ _ Hg Hp));
        destruct (IH _ _ _ _ _ fuel Hr Hget Hterm) as (t & E & Hpo & Hps);
          [simpl in Hfuel; lia|]
    end.
    rewrite E, after_after. eexists. split; [reflexivity|].
    cbn. rewrite Hpo, Hps. split; reflexivity.
Qed.

(** The polling loop never hands control back to its caller. *)
Lemma poll_import_status_no_return fuel name u : forall w : W,
  outcome (poll_import_status env fuel name u w) <> Ret tt.
Proof.
  induction fuel as [|fuel IH]; intros w; simpl; [discriminate|].
  unfold bind. destruct (outcome (poll_once env name u w)); simpl;
    try discriminate. apply IH.
Qed.

Lemma passed_trace_has_no_failure name data (w : W) :
  no_error (issues_of data) = true ->
  ~ In (EvPrint (MsgImportFailed name))
       (trace (handle_outcome env name data w)).
Proof.
  intros E Hin. rewrite (handle_outcome_passed name data w E) in Hin.
  destruct (embedded_report (issues_of data));
    [destruct (load_report env s)|]; cbn [trace] in Hin;
    apply in_app_or in Hin; destruct Hin as [Hin|Hin];
    try (revert Hin; apply not_in_issue_lines; discriminate);
    simpl in Hin; intuition discriminate.
Qed.

Lemma failed_trace name data (w : W) :
  no_error (issues_of data) = false ->
  In (EvPrint (MsgImportFailed name))
     (trace (handle_outcome env name data w)) /\
  ~ In (EvPrint (MsgImportCompleted name))
       (trace (handle_outcome env name data w)).
Proof.
  intros E. rewrite (handle_outcome_failed name data w E). cbn [trace]. split.
  - apply in_or_app. right. simpl. auto.
  - intros Hin. apply in_app_or in Hin. destruct Hin as [Hin|Hin].
    + revert Hin. apply not_in_issue_lines. discriminate.
    + simpl in Hin. intuition discriminate.
Qed.

(** C1: on a terminal diagnostic outcome whose issues carry severities of
    the data model and whose embedded report, if one is selected, decodes,
    the poller reports the job as succeeded (completion line, exit code 0,
    no failure line) exactly when every issue is strictly below [error],
    and reports it as failed (failure line, no completion line) exactly
    when some issue is not. *)
Theorem poll_classifies_by_severity name u (w w' : W) resp data :
  requests_get env u w = (inr resp, w') ->
  terminal_outcome resp data ->
  Forall known_severity (issues_of data) ->
  report_decodes env (issues_of data) ->
  (reported_succeeded name (poll_once env name u w)
   <-> Forall below_error (issues_of data)) /\
  (reported_failed name (poll_once env name u w)
   <-> ~ Forall below_error (issues_of data)).
Proof.
  intros Hget Hterm Hknown Hdec.
  pose proof (no_error_below _ Hknown) as Hiff.
  unfold reported_succeeded, reported_failed.
  destruct (no_error (issues_of data)) eqn:E.
  - pose proof (proj1 Hiff eq_refl) as Hall.
    destruct (passed_outcome_is_reported name u w w' resp data
                Hget Hterm E Hdec) as [Ho Hc].
    assert (Hnf : ~ In (EvPrint (MsgImportFailed name))
                       (trace (poll_once env name u w))).
    { rewrite (poll_once_terminal name u w w' resp data Hget Hterm).
      unfold after. cbn [trace app]. intros [Hin|Hin]; [discriminate|].
      revert Hin. now apply passed_trace_has_no_failure. }
    split; split; tauto.
  - assert (Hnot : ~ Forall below_error (issues_of data)).
    { intros Hall. apply Hiff in Hall. discriminate. }
    destruct (failed_trace name data w' E) as [Hf Hnc].
    assert (Hf' : In (EvPrint (MsgImportFailed name))
                     (trace (poll_once env name u w))).
    { rewrite (poll_once_terminal name u w w' resp data Hget Hterm).
      unfold after. cbn [trace app]. now right. }
    assert (Hnc' : ~ In (EvPrint (MsgImportCompleted name))
                        (trace (poll_once env name u w))).
    { rewrite (poll_once_terminal name u w w' resp data Hget Hterm).
      unfold after. cbn [trace app]. intros [Hin|Hin]; [discriminate|].
      contradiction. }
    split; split; tauto.
Qed.

End Poller.

Lemma poll_classifies_by_severity_witness :
  reported_succeeded "A-META"
    (poll_once (terminal_env [report_issue]) "A-META" "status" 0%nat)
  <-> Forall below_error (issues_of (outcome_data [report_issue])).
Proof.
  apply (poll_classifies_by_severity (terminal_env [report_issue])
           "A-META" "status" 0%nat 1%nat
           (status_response 200 (outcome_data [report_issue]))
           (outcome_data [report_issue])).
  - reflexivity.
  - repeat split.
  - repeat constructor. exists "information", 0%nat. split; reflexivity.
  - intros d Hd. vm_compute in Hd. inversion Hd. subst d.
    exists "3 imported". reflexivity.
Defined.

(** The claim without the proviso on the embedded report fails: the
    outcome below is terminal, its one issue is informational, and the
    run ends in an exception without reporting the completion. *)
Lemma success_needs_decodable_report :
  requests_get (terminal_env [crash_issue]) "status" 0%nat
  = (inr (status_response 200 (outcome_data [crash_issue])), 1%nat) /\
  terminal_outcome (status_response 200 (outcome_data [crash_issue]))
                   (outcome_data [crash_issue]) /\
  Forall known_severity (issues_of (outcome_data [crash_issue])) /\
  Forall below_error (issues_of (outcome_data [crash_issue])) /\
  outcome (poll_once (terminal_env [crash_issue]) "A-META" "status" 0%nat)
  = Uncaught JSONDecodeError /\
  ~ (reported_succeeded "A-META"
       (poll_once (terminal_env [crash_issue]) "A-META" "status" 0%nat)
     <-> Forall below_error (issues_of (outcome_data [crash_issue]))).
Proof.
  assert (Hk : Forall known_severity (issues_of (outcome_data [crash_issue])))
    by (repeat constructor; exists "information", 0%nat; split; reflexivity).
  assert (Hb : Forall below_error (issues_of (outcome_data [crash_issue]))).
  { apply Forall_cons; [|apply Forall_nil]. exists "information", 0%nat.
    split; [reflexivity|]. split; [reflexivity|lia]. }
  split; [reflexivity|]. split; [repeat split|].
  split; [exact Hk|]. split; [exact Hb|]. split; [reflexivity|].
  intros [_ H]. destruct (H Hb) as [Ho _]. vm_compute in Ho. discriminate.
Qed.


(** C3: the server answers in progress twice and then a terminal outcome
    with one error and one warning.  The poller reports the failure and
    exits with code 0, the code it also exits with when the only issue is
    informational. *)
Theorem failed_job_exits_with_zero :
  outcome (poll_import_status
             (sample_env [] probe_ok accepted (then_outcome failing_issues))
             3 "A-META" "status" 0%nat) = SysExit 0 /\
  In (EvPrint (MsgImportFailed "A-META"))
     (trace (poll_import_status
               (sample_env [] probe_ok accepted (then_outcome failing_issues))
               3 "A-META" "status" 0%nat)) /\
  outcome (poll_import_status
             (sample_env [] probe_ok accepted (then_outcome [report_issue]))
             3 "A-META" "status" 0%nat) = SysExit 0 /\
  In (EvPrint (MsgImportCompleted "A-META"))
     (trace (poll_import_status
               (sample_env [] probe_ok accepted (then_outcome [report_issue]))
               3 "A-META" "status" 0%nat)).
Proof.
  repeat split; vm_compute; intuition.
Qed.

(** ** Traces *)

Section TraceFacts.

Lemma probes_app t1 t2 : probes (t1 ++ t2) = (probes t1 ++ probes t2)%list.
Proof.
  induction t1 as [|e t1 IH]; simpl; [reflexivity|].
  destruct e; simpl; now rewrite IH.
Qed.

Lemma posts_app t1 t2 : posts (t1 ++ t2) = (posts t1 ++ posts t2)%list.
Proof.
  induction t1 as [|e t1 IH]; simpl; [reflexivity|].
  destruct e; simpl; now rewrite IH.
Qed.

Lemma polls_app t1 t2 : polls (t1 ++ t2) = (polls t1 ++ polls t2)%list.
Proof.
  induction t1 as [|e t1 IH]; simpl; [reflexivity|].
  destruct e; simpl; now rewrite IH.
Qed.

Lemma quiet_no_requests t :
  quiet t -> probes t = [] /\ posts t = [] /\ polls t = [].
Proof.
  induction 1 as [|e t He _ IH]; simpl; [auto|].
  destruct e; simpl in He; try discriminate; exact IH.
Qed.

Lemma quiet_app t1 t2 : quiet t1 -> quiet t2 -> quiet (t1 ++ t2).
Proof. intros. now apply Forall_app. Qed.

Lemma quiet_prints (l : list Msg) : quiet (map EvPrint l).
Proof. induction l; constructor; auto. Qed.

Lemma posts_nil_not_in t u h p r : posts t = [] -> ~ In (EvPost u h p r) t.
Proof.
  induction t as [|e t IH]; simpl; [tauto|].
  intros Hp [E|Hin].
  - subst e. discriminate.
  - destruct e; try discriminate; now apply IH.
Qed.

End TraceFacts.

(** ** The URL validator and the import submitter *)

Section Submitter.
Context {W : Type} (env : Env W).

Lemma check_url_run u (w : W) :
  exists t,
    check_url env u w =
    {| outcome := Ret (probe_passes (fst (session_head env u w)));
       world := snd (session_head env u w);
       trace := EvHead u (fst (session_head env u w)) :: t |} /\
    quiet t.
Proof.
  unfold check_url, bind, head, request.
  destruct (session_head env u w) as [[e|resp] w']; cbn.
  - eexists. split; [reflexivity|]. repeat constructor.
  - destruct (head_status resp =? 200); cbn.
    + destruct (PyStr.contains "json" _); cbn;
        eexists; (split; [reflexivity|]); repeat constructor.
    + eexists. split; [reflexivity|]. repeat constructor.
Qed.

Lemma validate_urls_run urls : forall acc (w : W),
  exists w' t,
    validate_urls env urls acc w =
    {| outcome := Ret (acc ++ passing t)%list; world := w'; trace := t |} /\
    map fst (probes t) = urls /\ posts t = [] /\ polls t = [].
Proof.
  induction urls as [|u urls IH]; intros acc w; simpl.
  - exists w, []. unfold ret, passing. simpl. now rewrite app_nil_r.
  - destruct (check_url_run u w) as (t0 & E0 & Hq).
    destruct (quiet_no_requests _ Hq) as (Hpr & Hpo & Hge).
    rewrite (bind_step _ _ _ _ _ _ E0).
    set (r := fst (session_head env u w)).
    destruct (IH (if probe_passes r then (acc ++ [u])%list else acc)
                 (snd (session_head env u w))) as (w' & t & E & Hu & Hp & Hg).
    exists w', (EvHead u r :: t0 ++ t)%list. rewrite E. unfold after. cbn.
    rewrite !probes_app, posts_app, polls_app, Hpr, Hpo, Hge. cbn [app].
    rewrite Hu, Hp, Hg. split; [|auto]. do 2 f_equal. unfold passing.
    destruct (probe_passes r); cbn; [now rewrite <- app_assoc|reflexivity].
Qed.

Lemma validate_urls_answers urls : forall acc (w : W),
  probes (trace (validate_urls env urls acc w))
  = combine urls (head_answers env urls w).
Proof.
  induction urls as [|u urls IH]; intros acc w;
    cbn [validate_urls head_answers combine]; [reflexivity|].
  destruct (check_url_run u w) as (t0 & E0 & Hq).
  rewrite (bind_step _ _ _ _ _ _ E0). unfold after. cbn [trace].
  rewrite probes_app. cbn [probes].
  rewrite (proj1 (quiet_no_requests _ Hq)). cbn [app]. f_equal. apply IH.
Qed.

Lemma combine_head_answers urls : forall w : W,
  map fst (combine urls (head_answers env urls w)) = urls.
Proof.
  induction urls as [|u urls IH]; intros w; cbn; [reflexivity|].
  now rewrite IH.
Qed.

(** C6: the validator asks the service for every candidate URL once, in
    order, and returns normally; the answers its run holds are the
    answers the service gave, and its result is the list of the URLs
    whose answer came without exception, had status 200 and a content
    type containing [json], in the order of the input. *)
Theorem validator_keeps_exactly_passing (urls : list string) (w : W) :
  exists valid,
    outcome (validate_urls env urls [] w) = Ret valid /\
    probes (trace (validate_urls env urls [] w))
    = combine urls (head_answers env urls w) /\
    map fst (probes (trace (validate_urls env urls [] w))) = urls /\
    valid = map fst (filter (fun p => probe_passes (snd p))
                            (combine urls (head_answers env urls w))) /\
    valid = map fst (filter (fun p => probe_passes (snd p))
                            (probes (trace (validate_urls env urls [] w)))).
Proof.
  destruct (validate_urls_run urls [] w) as (w' & t & E & Hu & _).
  pose proof (validate_urls_answers urls [] w) as Ha.
  rewrite E in *. cbn [outcome trace] in *. exists (passing t).
  split; [reflexivity|]. split; [exact Ha|]. split; [exact Hu|].
  split; [|reflexivity]. unfold passing. now rewrite Ha.
Qed.

(** C8: when no candidate URL ends in [.ndjson], the submitter prints its
    notice and returns; no request of any kind is made. *)
Theorem nothing_to_import_is_a_no_op fuel name (urls : list string) (w : W) :
  Forall (fun u => PyStr.endswith u NDJSON = false) urls ->
  submit_import env fuel name urls w =
  {| outcome := Ret tt; world := w; trace := [EvPrint (MsgNoResources name)] |}
  /\ probes (trace (submit_import env fuel name urls w)) = []
  /\ posts (trace (submit_import env fuel name urls w)) = []
  /\ polls (trace (submit_import env fuel name urls w)) = [].
Proof.
  intros H. unfold submit_import.
  assert (E : filter (fun u => PyStr.endswith u NDJSON) urls = []).
  { induction H as [|u urls Hu _ IH]; simpl; [reflexivity|]. now rewrite Hu. }
  rewrite E. repeat split; reflexivity.
Qed.

Lemma bind_trace_cases {A B} (m : M W A) (f : A -> M W B) (w : W) :
  (trace (bind m f w) = trace (m w) /\ forall a, outcome (m w) <> Ret a) \/
  exists a, outcome (m w) = Ret a /\
            bind m f w = after (trace (m w)) (f a (world (m w))).
Proof.
  unfold bind. destruct (outcome (m w)) eqn:E; cbn;
    try (left; split; [reflexivity|discriminate]).
  right. exists a. split; reflexivity.
Qed.

Lemma handle_outcome_quiet name data (w : W) :
  quiet (trace (handle_outcome env name data w)).
Proof.
  assert (Hl : quiet (issue_lines (issues_of data))).
  { unfold issue_lines. induction (issues_of data); constructor; auto. }
  destruct (no_error (issues_of data)) eqn:E.
  - rewrite (handle_outcome_passed env name data w E).
    destruct (embedded_report (issues_of data));
      [destruct (load_report env s)|]; cbn [trace];
      apply quiet_app; auto; repeat constructor.
  - rewrite (handle_outcome_failed env name data w E). cbn [trace].
    apply quiet_app; auto; repeat constructor.
Qed.

(** One turn of the polling loop makes one request, to the status URL. *)
Lemma poll_once_trace name u (w : W) :
  exists t,
    trace (poll_once env name u w)
    = EvGet u (fst (requests_get env u w)) :: t /\ quiet t.
Proof.
  pose proof (handle_outcome_quiet name) as Hq.
  unfold poll_once, bind, get, request.
  destruct (requests_get env u w) as [[e|resp] w']; cbn -[handle_outcome].
  { eexists. split; [reflexivity|constructor]. }
  destruct (PyStr.contains "json" _); cbn -[handle_outcome];
    [|eexists; split; [reflexivity|repeat constructor]].
  destruct (st_json resp) as [data|]; cbn -[handle_outcome];
    [|eexists; split; [reflexivity|repeat constructor]].
  destruct (st_status resp =? 202); cbn -[handle_outcome];
    [eexists; split; [reflexivity|repeat constructor]|].
  destruct (st_status resp =? 200); cbn -[handle_outcome];
    [|eexists; split; [reflexivity|repeat constructor]].
  destruct (match resourceType data with
            | Some t => negb (t =? "OperationOutcome")%string
            | None => true
            end); cbn -[handle_outcome];
    [eexists; split; [reflexivity|repeat constructor]|].
  specialize (Hq data w').
  destruct (handle_outcome env name data w') as [o w2 t]. cbn in *.
  destruct o; cbn; eexists; (split; [reflexivity|exact Hq]).
Qed.

(** The polling loop asks for the status URL and nothing else; with fuel
    it asks at least once. *)
Lemma poll_import_status_trace fuel name u : forall w : W,
  probes (trace (poll_import_status env fuel name u w)) = [] /\
  posts (trace (poll_import_status env fuel name u w)) = [] /\
  exists k, polls (trace (poll_import_status env fuel name u w)) = repeat u k
            /\ (fuel <> 0%nat -> k <> 0%nat).
Proof.
  induction fuel as [|fuel IH]; intros w.
  - cbn. repeat split. exists 0%nat. split; [reflexivity|congruence].
  - cbn [poll_import_status].
    destruct (poll_once_trace name u w) as (t & Et & Hq).
    destruct (quiet_no_requests _ Hq) as (Hpr & Hpo & Hge).
    destruct (bind_trace_cases (poll_once env name u)
                (fun _ => poll_import_status env fuel name u) w)
      as [[E _]|(a & _ & E)].
    + rewrite E, Et. cbn. rewrite Hpr, Hpo, Hge. repeat split.
      exists 1%nat. split; [reflexivity|congruence].
    + rewrite E. unfold after. cbn [trace]. rewrite Et.
      destruct (IH (world (poll_once env name u w)))
        as (Ipr & Ipo & k & Ik & _).
      cbn. rewrite probes_app, posts_app, polls_app.
      rewrite Hpr, Hpo, Hge, Ipr, Ipo, Ik. repeat split.
      exists (S k). split; [reflexivity|congruence].
Qed.

Lemma after_submit_run fuel name x (w : W) :
  after_submit env fuel name x w =
  match x with
  | inl e => {| outcome := Uncaught e; world := w; trace := [] |}
  | inr resp =>
      match headers_get (post_headers resp) "Content-Location" with
      | None =>
          {| outcome := SysExit 1; world := w;
             trace := [EvPrint (MsgSubmitFailed name import_url
                                                (post_status resp));
                       EvPrint (MsgResponseText (post_text resp))] |}
      | Some status_url =>
          after [EvPrint (MsgSubmitted name status_url)]
                (poll_import_status env fuel name status_url w)
      end
  end.
Proof.
  unfold after_submit. destruct x as [e|resp]; cbn [or_raise]; [reflexivity|].
  rewrite bind_ret_l.
  destruct (headers_get (post_headers resp) "Content-Location"); reflexivity.
Qed.

Lemma after_submit_no_return fuel name x (w : W) :
  outcome (after_submit env fuel name x w) <> Ret tt /\
  posts (trace (after_submit env fuel name x w)) = [].
Proof.
  rewrite after_submit_run. destruct x as [e|resp]; [split; [discriminate|reflexivity]|].
  destruct (headers_get (post_headers resp) "Content-Location") as [loc|];
    [|split; [discriminate|reflexivity]].
  unfold after. cbn [outcome trace app posts]. split.
  - apply poll_import_status_no_return.
  - apply poll_import_status_trace.
Qed.

Lemma add_inputs_run urls : forall params (w : W),
  add_inputs urls params w =
  {| outcome := Ret (params ++ map input_parameter urls)%list; world := w;
     trace := map EvPrint
                  (map (fun u => MsgAddingResource (resource_type_of u) u)
                       urls) |}.
Proof.
  induction urls as [|u urls IH]; intros params w; simpl.
  - unfold ret. now rewrite app_nil_r.
  - rewrite bind_print, IH. unfold after. cbn. now rewrite <- app_assoc.
Qed.

(** A submission either returns without having posted or polled, or
    posts once and goes on with [after_submit]. *)
Lemma submit_import_run fuel name urls (w : W) :
  (outcome (submit_import env fuel name urls w) = Ret tt /\
   posts (trace (submit_import env fuel name urls w)) = [] /\
   polls (trace (submit_import env fuel name urls w)) = [])
  \/
  exists t0 w1 payload,
    posts t0 = [] /\ polls t0 = [] /\
    input_urls (parameter payload) = passing t0 /\
    submit_import env fuel name urls w =
    after (t0 ++ [EvPost import_url import_headers payload
                         (fst (session_post env import_url import_headers
                                            payload w1))])
          (after_submit env fuel name
             (fst (session_post env import_url import_headers payload w1))
             (snd (session_post env import_url import_headers payload w1))).
Proof.
  unfold submit_import.
  destruct (filter (fun u => PyStr.endswith u NDJSON) urls) as [|u0 us];
    [left; repeat split|].
  rewrite bind_print.
  destruct (validate_urls_run (u0 :: us) [] w) as (w1 & t & E & _ & Hp & Hg).
  rewrite (bind_step _ _ _ _ _ _ E). cbn [app].
  destruct (passing t) as [|v vs] eqn:Ev.
  - left. unfold after. cbn. rewrite posts_app, polls_app, Hp, Hg.
    repeat split.
  - right. rewrite (bind_step _ _ _ _ _ _ (add_inputs_run (v :: vs) _ w1)).
    set (payload := {| p_resourceType := "Parameters";
                       parameter := (base_parameters
                                     ++ map input_parameter (v :: vs))%list |}).
    set (lines := map EvPrint _).
    exists (EvPrint (MsgImporting name (List.length (u0 :: us)))
              :: t ++ lines)%list, w1, payload.
    assert (Hl : quiet lines) by apply quiet_prints.
    destruct (quiet_no_requests _ Hl) as (Lpr & Lpo & Lge).
    cbn [posts polls]. rewrite posts_app, polls_app, Hp, Hg, Lpo, Lge.
    repeat split.
    + unfold passing. cbn [probes]. rewrite probes_app, Lpr, app_nil_r.
      fold (passing t). rewrite Ev. unfold payload. cbn [parameter].
      clear. cbn [base_parameters app input_urls]. generalize (v :: vs).
      induction l as [|x l IH]; cbn; [reflexivity|now rewrite IH].
    + unfold post, request. unfold bind at 1.
      destruct (session_post env import_url import_headers payload w1)
        as [x w2]. cbn. unfold after. cbn.
      rewrite <- !app_assoc. reflexivity.
Qed.

(** C5: when the answer to the submission has no [Content-Location]
    header, the submitter exits with code 1, no status URL is ever asked
    for, and nothing that was to follow in the run happens; when the
    header is there, the status requests of the submission all go to the
    location it names, and with fuel there is at least one. *)
Theorem submission_needs_status_location
        fuel name urls (w : W) u h p resp :
  In (EvPost u h p (inr resp)) (trace (submit_import env fuel name urls w)) ->
  (headers_get (post_headers resp) "Content-Location" = None ->
   outcome (submit_import env fuel name urls w) = SysExit 1 /\
   polls (trace (submit_import env fuel name urls w)) = [] /\
   forall k : unit -> M W unit,
     outcome (bind (submit_import env fuel name urls) k w) = SysExit 1 /\
     trace (bind (submit_import env fuel name urls) k w)
     = trace (submit_import env fuel name urls w)) /\
  (forall status_url,
     headers_get (post_headers resp) "Content-Location" = Some status_url ->
     fuel <> 0%nat ->
     exists n, polls (trace (submit_import env fuel name urls w))
               = repeat status_url (S n)).
Proof.
  intros Hin.
  destruct (submit_import_run fuel name urls w)
    as [(_ & Hp & _)|(t0 & w1 & payload & Hp & Hg & _ & E)].
  { exfalso. revert Hin. now apply posts_nil_not_in. }
  destruct (session_post env import_url import_headers payload w1)
    as [x w2] eqn:Ex. cbn [fst snd] in E.
  assert (Hx : x = inr resp).
  { rewrite E in Hin. unfold after in Hin. cbn [trace] in Hin.
    apply in_app_or in Hin. destruct Hin as [Hin|Hin].
    - apply in_app_or in Hin. destruct Hin as [Hin|[Hin|[]]].
      + exfalso. revert Hin. now apply posts_nil_not_in.
      + now inversion Hin.
    - exfalso. revert Hin. apply posts_nil_not_in.
      apply after_submit_no_return. }
  subst x. rewrite after_submit_run in E. split.
  - intros Hnone. rewrite Hnone in E.
    assert (Ho : outcome (submit_import env fuel name urls w) = SysExit 1)
      by now rewrite E.
    split; [exact Ho|]. split.
    + rewrite E. unfold after. cbn [trace]. rewrite !polls_app, Hg. reflexivity.
    + intros k. destruct (bind_exit _ k w _ Ho) as (H1 & H2 & _). auto.
  - intros loc Hloc Hfuel. rewrite Hloc in E. rewrite E.
    destruct (poll_import_status_trace fuel name loc w2)
      as (_ & _ & n & Hn & Hpos).
    unfold after. cbn [trace]. rewrite !polls_app, Hg, Hn. cbn.
    destruct n as [|n]; [now elim Hpos|]. now exists n.
Qed.

End Submitter.

Lemma validator_keeps_exactly_passing_witness :
  outcome (validate_urls mixed_env mixed_urls [] 0%nat)
  = Ret ["a/Patient.ndjson"; "a/Specimen.ndjson"].
Proof.
  destruct (validator_keeps_exactly_passing mixed_env mixed_urls 0%nat)
    as (valid & Ho & _ & _ & Hv & _).
  rewrite Ho, Hv. reflexivity.
Defined.

Lemma submission_needs_status_location_witness :
  outcome (submit_import rejecting_env 3 "A-META" [sample_url] 0%nat)
  = SysExit 1 /\
  polls (trace (submit_import rejecting_env 3 "A-META" [sample_url] 0%nat))
  = [].
Proof.
  destruct (submission_needs_status_location rejecting_env 3 "A-META"
              [sample_url] 0%nat import_url import_headers sample_payload
              rejected_response) as [H _].
  - vm_compute. do 3 right. left. reflexivity.
  - destruct (H eq_refl) as (H1 & H2 & _). split; assumption.
Defined.

Lemma nothing_to_import_is_a_no_op_witness :
  submit_import rejecting_env 3 "A-META" ["README.md"; "A-META.csv"] 0%nat =
  {| outcome := Ret tt; world := 0%nat;
     trace := [EvPrint (MsgNoResources "A-META")] |}.
Proof.
  apply (nothing_to_import_is_a_no_op rejecting_env 3 "A-META"
           ["README.md"; "A-META.csv"] 0%nat).
  repeat constructor.
Defined.

(** ** The import command *)

Section ImportCommand.
Context {W : Type} (env : Env W).

(** Whatever the server does, however many datasets are selected, a run
    of the import loop submits at most one job. *)
Lemma import_loop_posts fuel a ds : forall w : W,
  (List.length (posts (trace (import_loop env fuel a ds w))) <= 1)%nat.
Proof.
  induction ds as [|[dataset info] ds IH]; intros w; cbn [import_loop].
  - cbn. lia.
  - destruct (skip_legacy a && PyStr.startswith dataset "R4"); [apply IH|].
    destruct (excluded_by_only a dataset); [apply IH|].
    destruct (bind_trace_cases (submit_import env fuel dataset (ds_objects info))
                (fun _ => import_loop env fuel a ds) w)
      as [[E _]|([] & Ho & E)].
    + rewrite E.
      destruct (submit_import_run env fuel dataset (ds_objects info) w)
        as [(_ & Hp & _)|(t0 & w1 & payload & Hp & _ & _ & E')].
      * rewrite Hp. cbn. lia.
      * rewrite E'. unfold after. cbn [trace].
        rewrite !posts_app, Hp.
        rewrite (proj2 (after_submit_no_return env fuel dataset _ _)).
        cbn. lia.
    + rewrite E.
      destruct (submit_import_run env fuel dataset (ds_objects info) w)
        as [(_ & Hp & _)|(t0 & w1 & payload & _ & _ & _ & E')].
      * unfold after. cbn [trace]. rewrite posts_app, Hp. apply IH.
      * exfalso. rewrite E' in Ho. unfold after in Ho. cbn [outcome] in Ho.
        now apply (after_submit_no_return env fuel dataset _ _) in Ho.
Qed.

(** The listing asks the storage service only. *)
Lemma list_pages_trace fuel bucket_base api_url :
  forall page_token files (w : W),
    posts (trace (list_pages env fuel bucket_base api_url page_token files w))
    = [].
Proof.
  induction fuel as [|fuel IH]; intros page_token files w;
    cbn [list_pages]; [reflexivity|].
  unfold bind at 1. unfold get_list, request.
  destruct (storage_get env api_url page_token w) as [[e|resp] w'];
    cbn [outcome world trace or_raise]; [reflexivity|].
  rewrite bind_ret_l. unfold raise_for_status.
  destruct ((400 <=? list_status resp) && (list_status resp <? 600));
    [reflexivity|].
  rewrite bind_ret_l.
  destruct (list_json resp) as [data|]; [|reflexivity].
  rewrite bind_ret_l.
  destruct (nextPageToken data) as [tok|]; [|reflexivity].
  cbn [trace app posts]. apply IH.
Qed.

Lemma list_loop_trace ds : forall w : W,
  posts (trace (list_loop ds w)) = [].
Proof.
  induction ds as [|[dataset info] ds IH]; intros w; cbn [list_loop];
    [reflexivity|].
  rewrite bind_print. unfold after. cbn [trace app posts]. apply IH.
Qed.

Lemma discover_datasets_trace fuel (w : W) :
  posts (trace (discover_datasets env fuel w)) = [].
Proof.
  unfold discover_datasets. rewrite bind_print. unfold after.
  cbn [trace app posts]. unfold list_ndjson_objects.
  destruct (bind_trace_cases
              (list_pages env fuel BUCKET_BASE
                 ("https://storage.googleapis.com/storage/v1/b/"
                  ++ PyStr.last_segment "/" BUCKET_BASE ++ "/o") None [])
              (fun objects => ret (group_objects objects)) w)
    as [[E _]|(objects & _ & E)]; rewrite E.
  - apply list_pages_trace.
  - unfold after. cbn [trace ret]. rewrite app_nil_r. apply list_pages_trace.
Qed.

(** The same holds of a whole run of the script. *)
Lemma main_posts fuel a (w : W) :
  (List.length (posts (trace (main env fuel a w))) <= 1)%nat.
Proof.
  unfold main.
  destruct (bind_trace_cases (discover_datasets env fuel)
              (fun datasets =>
                 match command a with
                 | CmdImport => import_loop env fuel a datasets
                 | CmdList => print MsgAvailable ;; list_loop datasets
                 end) w)
    as [[E _]|(datasets & _ & E)]; rewrite E.
  - rewrite discover_datasets_trace. cbn. lia.
  - unfold after. cbn [trace]. rewrite posts_app, discover_datasets_trace.
    cbn [app]. destruct (command a).
    + apply import_loop_posts.
    + rewrite bind_print. unfold after. cbn [trace app posts].
      rewrite list_loop_trace. cbn. lia.
Qed.

End ImportCommand.

(** C2: the bucket holds the datasets [A-META] and [B-META], both are
    selected, every probe passes and the job of [A-META] ends well.  The
    run then exits with code 0 out of the poller: one job was submitted,
    for [A-META]; no URL of [B-META] was probed or submitted. *)
Theorem second_dataset_is_never_imported :
  option_map (@PyDict.keys DatasetInfo)
    (match outcome (discover_datasets two_dataset_env 5 0%nat) with
     | Ret d => Some d
     | _ => None
     end) = Some ["A-META"; "B-META"] /\
  skipped import_all "A-META" = false /\
  skipped import_all "B-META" = false /\
  outcome (main two_dataset_env 5 import_all 0%nat) = SysExit 0 /\
  In (EvPrint (MsgImportCompleted "A-META"))
     (trace (main two_dataset_env 5 import_all 0%nat)) /\
  map (fun p => input_urls (parameter p))
      (posts (trace (main two_dataset_env 5 import_all 0%nat)))
  = [[BUCKET_BASE ++ "/A-META-1.ndjson"]] /\
  map fst (probes (trace (main two_dataset_env 5 import_all 0%nat)))
  = [BUCKET_BASE ++ "/A-META-1.ndjson"].
Proof.
  repeat split; vm_compute; intuition.
Qed.

(** * Further properties *)

(** ** Substrings *)

Section SubstringFacts.

Lemma string_app_assoc : forall a b c : string, (a ++ b) ++ c = a ++ b ++ c.
Proof. induction a; intros; simpl; [|rewrite IHa]; reflexivity. Qed.

Lemma string_app_nil_r : forall a : string, a ++ "" = a.
Proof. induction a; simpl; [|rewrite IHa]; reflexivity. Qed.

(** An occurrence is found, wherever the count starts. *)
Lemma find_from_occurs sub post : forall pre i,
  0 <= i -> PyStr.find_from sub (pre ++ sub ++ post) i <> -1.
Proof.
  induction pre as [|c pre IH]; intros i Hi.
  - cbn [append]. destruct (sub ++ post) eqn:E; cbn [PyStr.find_from];
      rewrite <- E, prefix_app; lia.
  - cbn [append PyStr.find_from].
    destruct (String.prefix sub (String c (pre ++ sub ++ post))); [lia|].
    apply IH. lia.
Qed.

Lemma contains_iff sub s :
  PyStr.contains sub s = true <-> exists pre post, s = pre ++ sub ++ post.
Proof.
  unfold PyStr.contains, PyStr.find. rewrite negb_true_iff, Z.eqb_neq. split.
  - intros H. destruct (find_from_found sub s 0 _ eq_refl H) as (pre & post & E & _).
    now exists pre, post.
  - intros (pre & post & ->). apply find_from_occurs. lia.
Qed.

Lemma contains_trans a b c :
  PyStr.contains a b = true -> PyStr.contains b c = true ->
  PyStr.contains a c = true.
Proof.
  rewrite !contains_iff. intros (p1 & q1 & ->) (p2 & q2 & ->).
  exists (p2 ++ p1), (q1 ++ q2). now rewrite !string_app_assoc.
Qed.

Lemma contains_tail sub c s :
  PyStr.contains sub (String c s) = false ->
  String.prefix sub (String c s) = false /\ PyStr.contains sub s = false.
Proof.
  intros H. split.
  - destruct (String.prefix sub (String c s)) eqn:E; [|reflexivity].
    destruct (prefix_split _ _ E) as [post Ep].
    assert (Ht : PyStr.contains sub (String c s) = true)
      by (apply contains_iff; now exists "", post).
    congruence.
  - destruct (PyStr.contains sub s) eqn:E; [|reflexivity].
    apply contains_iff in E. destruct E as (pre & post & ->).
    assert (Ht : PyStr.contains sub (String c (pre ++ sub ++ post)) = true)
      by (apply contains_iff; now exists (String c pre), post).
    congruence.
Qed.

(** [replace] with nothing to replace gives the string back. *)
Lemma replace_go_absent old new : forall s,
  PyStr.contains old s = false -> PyStr.replace_go old new s 0 = s.
Proof.
  induction s as [|c s IH]; intros H; [reflexivity|].
  destruct (contains_tail _ _ _ H) as [Hp Hc].
  cbn [PyStr.replace_go]. rewrite Hp, IH; auto.
Qed.

Lemma replace_go_skip old new : forall a b,
  PyStr.replace_go old new (a ++ b) (String.length a)
  = PyStr.replace_go old new b 0.
Proof.
  induction a as [|c a IH]; intros b; [reflexivity|].
  cbn [append String.length PyStr.replace_go]. apply IH.
Qed.

(** Removing a leading [old] from [old ++ rest] when [rest] holds no
    further occurrence. *)
Lemma replace_leading old rest :
  old <> "" -> PyStr.contains old rest = false ->
  PyStr.replace (old ++ rest) old "" = rest.
Proof.
  intros Hne Hc. destruct old as [|c old]; [congruence|].
  unfold PyStr.replace. cbn [append PyStr.replace_go].
  pose proof (prefix_app (String c old) rest) as Hp. cbn [append] in Hp.
  rewrite Hp. cbn [String.length Nat.sub append].
  rewrite Nat.sub_0_r, replace_go_skip. now apply replace_go_absent.
Qed.

Lemma substring_0_prefix : forall m s, exists rest, s = substring 0 m s ++ rest.
Proof.
  induction m as [|m IH]; intros s.
  - exists s. now destruct s.
  - destruct s as [|c s]; [now exists ""|].
    destruct (IH s) as [rest E]. exists rest. cbn. now rewrite <- E.
Qed.

Lemma substring_shift : forall a k m b,
  substring (String.length a + k) m (a ++ b) = substring k m b.
Proof. induction a as [|c a IH]; intros; [reflexivity|]. cbn. apply IH. Qed.

(** A suffix of the tail is a suffix of the whole. *)
Lemma endswith_app a b p :
  PyStr.endswith b p = true -> PyStr.endswith (a ++ b) p = true.
Proof.
  unfold PyStr.endswith. rewrite length_app.
  intros H. apply andb_true_iff in H. destruct H as [Hle Heq].
  apply Nat.leb_le in Hle. apply andb_true_iff. split.
  - apply Nat.leb_le. lia.
  - replace (String.length a + String.length b - String.length p)%nat
      with (String.length a + (String.length b - String.length p))%nat by lia.
    now rewrite substring_shift.
Qed.

End SubstringFacts.

(** ** More on the dataset grouper *)

Section GrouperMore.

Lemma str_lt_irrefl x : ~ str_lt x x.
Proof.
  unfold str_lt, String.ltb. intros H.
  destruct (String.compare x x) eqn:E; try discriminate.
  pose proof (String.compare_antisym x x) as A. rewrite E in A. discriminate.
Qed.

(** A strictly ascending list is determined by its members. *)
Lemma sorted_unique : forall l1 l2,
  StronglySorted str_lt l1 -> StronglySorted str_lt l2 ->
  (forall x, In x l1 <-> In x l2) -> l1 = l2.
Proof.
  induction l1 as [|a l1 IH]; intros [|b l2] H1 H2 Hm.
  - reflexivity.
  - exfalso. apply (proj2 (Hm b)). now left.
  - exfalso. apply (proj1 (Hm a)). now left.
  - inversion H1 as [|? ? S1 F1]; inversion H2 as [|? ? S2 F2]; subst.
    rewrite Forall_forall in F1, F2.
    assert (Hab : a = b).
    { destruct (proj1 (Hm a) (or_introl eq_refl)) as [E|Ha]; [now symmetry|].
      destruct (proj2 (Hm b) (or_introl eq_refl)) as [E|Hb]; [exact E|].
      exfalso. apply (str_lt_irrefl a).
      eapply str_lt_trans; [apply F1, Hb|apply F2, Ha]. }
    subst b. f_equal. apply IH; auto. intros x. split; intros Hx.
    + destruct (proj1 (Hm x) (or_intror Hx)) as [E|Hx']; [|exact Hx'].
      subst x. exfalso. apply (str_lt_irrefl a). now apply F1.
    + destruct (proj2 (Hm x) (or_intror Hx)) as [E|Hx']; [|exact Hx'].
      subst x. exfalso. apply (str_lt_irrefl a). now apply F2.
Qed.

Lemma group_entry objects name :
  In name (projects objects) ->
  In (name, dataset_info objects name) (group_objects objects).
Proof.
  intros Hin. rewrite <- group_objects_keys in Hin.
  unfold PyDict.keys in Hin. apply in_map_iff in Hin.
  destruct Hin as ([k v] & Ek & Hkv). cbn in Ek. subst k.
  assert (E : v = dataset_info objects name).
  { unfold group_objects in Hkv.
    eapply (fold_values (dataset_info objects)); [|exact Hkv]. intros ? ? []. }
  now subst v.
Qed.

Lemma group_entry_inv objects name info :
  In (name, info) (group_objects objects) ->
  In name (projects objects) /\ info = dataset_info objects name.
Proof.
  intros Hin. split.
  - rewrite <- group_objects_keys. unfold PyDict.keys.
    apply in_map_iff. now exists (name, info).
  - unfold group_objects in Hin.
    eapply (fold_values (dataset_info objects)); [|exact Hin]. intros ? ? [].
Qed.

Lemma get_of_entry {V} (d : PyDict.dict V) k v :
  NoDup (PyDict.keys d) -> In (k, v) d -> PyDict.get d k = Some v.
Proof.
  unfold PyDict.keys. induction d as [|[k0 v0] d IH]; intros Hnd Hin; [easy|].
  cbn in *. inversion Hnd as [|? ? Hk Hnd']; subst.
  destruct Hin as [E|Hin].
  - inversion E; subst. now rewrite String.eqb_refl.
  - destruct (String.eqb_spec k0 k) as [->|Hne]; [|now apply IH].
    exfalso. apply Hk. apply in_map_iff. now exists (k, v).
Qed.

Lemma get_of_absent {V} (d : PyDict.dict V) k :
  ~ In k (PyDict.keys d) -> PyDict.get d k = None.
Proof.
  unfold PyDict.keys. induction d as [|[k0 v0] d IH]; intros Hk; [easy|].
  cbn in *. destruct (String.eqb_spec k0 k) as [->|Hne]; [tauto|].
  apply IH. tauto.
Qed.

(** X1: looking a name up in the result of the grouper gives the entry
    computed for that name when some listed object derives it, and nothing
    otherwise. *)
Theorem lookup_of_grouped_dataset objects name :
  ((exists o, In o objects /\ name = derived_name (relative_path o)) ->
   PyDict.get (group_objects objects) name
   = Some (dataset_info objects name)) /\
  ((forall o, In o objects -> name <> derived_name (relative_path o)) ->
   PyDict.get (group_objects objects) name = None).
Proof.
  split; intros H.
  - apply get_of_entry.
    + rewrite group_objects_keys. apply strict_NoDup, sorted_strict, NoDup_nodup.
    + apply group_entry. now apply projects_In.
  - apply get_of_absent. rewrite group_objects_keys, projects_In.
    intros (o & Ho & E). exact (H o Ho E).
Qed.

Lemma relative_path_listed o name :
  url o = BUCKET_BASE ++ "/" ++ name ->
  PyStr.contains (BUCKET_BASE ++ "/") name = false ->
  relative_path o = name.
Proof.
  intros Hu Hc. unfold relative_path. rewrite Hu, <- string_app_assoc.
  apply replace_leading; [discriminate|exact Hc].
Qed.

Lemma derived_name_prefix p : exists rest, p = derived_name p ++ rest.
Proof. unfold derived_name, PyStr.slice_to. apply substring_0_prefix. Qed.

(** X2: an object listed as [BUCKET_BASE/name], where [name] does not
    repeat the bucket prefix, is filed under the name derived from [name]:
    that name is a key of the result and the object's URL is among the
    objects of its entry. *)
Theorem listed_object_is_grouped objects o name :
  In o objects ->
  url o = BUCKET_BASE ++ "/" ++ name ->
  PyStr.contains (BUCKET_BASE ++ "/") name = false ->
  exists info,
    PyDict.get (group_objects objects) (derived_name name) = Some info /\
    In (url o) (ds_objects info).
Proof.
  intros Hin Hu Hc.
  pose proof (relative_path_listed o name Hu Hc) as Hr.
  exists (dataset_info objects (derived_name name)). split.
  - apply get_of_entry.
    + rewrite group_objects_keys. apply strict_NoDup, sorted_strict, NoDup_nodup.
    + apply group_entry, projects_In. exists o. now rewrite Hr.
  - cbn [ds_objects dataset_info]. apply in_map. unfold matching.
    apply filter_In. split; [exact Hin|].
    destruct (derived_name_prefix name) as [rest E].
    apply contains_iff. exists (BUCKET_BASE ++ "/"), rest.
    rewrite Hu, <- string_app_assoc. now rewrite <- E.
Qed.

End GrouperMore.

Section GrouperOrder.

Lemma filter_permutation {A} (f : A -> bool) l l' :
  Permutation l l' -> Permutation (filter f l) (filter f l').
Proof.
  induction 1 as [|x l l' _ IH|x y l|l l' l'' _ IH1 _ IH2]; cbn.
  - constructor.
  - destruct (f x); [now constructor|exact IH].
  - destruct (f x), (f y); try reflexivity. apply perm_swap.
  - now transitivity (filter f l').
Qed.

Lemma total_bytes_permutation l l' :
  Permutation l l' -> total_bytes l = total_bytes l'.
Proof.
  unfold total_bytes.
  induction 1 as [|x l l' _ IH|x y l|l l' l'' _ IH1 _ IH2]; cbn; lia.
Qed.

(** X3: a key whose name occurs inside another key takes the objects of
    that other dataset as well: datasets with nested names overlap. *)
Theorem nested_names_share_objects objects n1 i1 n2 i2 :
  In (n1, i1) (group_objects objects) ->
  In (n2, i2) (group_objects objects) ->
  PyStr.contains n1 n2 = true ->
  incl (ds_objects i2) (ds_objects i1).
Proof.
  intros H1 H2 Hc.
  destruct (group_entry_inv _ _ _ H1) as [_ ->].
  destruct (group_entry_inv _ _ _ H2) as [_ ->].
  cbn [ds_objects dataset_info]. intros u Hu.
  apply in_map_iff in Hu. destruct Hu as (o & <- & Ho).
  unfold matching in Ho. apply filter_In in Ho. destruct Ho as [Ho Hm].
  apply in_map. apply filter_In. split; [exact Ho|].
  now apply (contains_trans n1 n2).
Qed.

(** X4: the names of the datasets and their sizes do not depend on the
    order in which the objects are listed; the objects of a dataset are
    the same up to order. *)
Theorem grouping_ignores_listing_order l l' :
  Permutation l l' ->
  PyDict.keys (group_objects l) = PyDict.keys (group_objects l') /\
  forall name i i',
    In (name, i) (group_objects l) -> In (name, i') (group_objects l') ->
    ds_size i = ds_size i' /\ Permutation (ds_objects i) (ds_objects i').
Proof.
  intros Hp. split.
  - rewrite !group_objects_keys. apply sorted_unique.
    + apply sorted_strict, NoDup_nodup.
    + apply sorted_strict, NoDup_nodup.
    + intros x. rewrite !projects_In. split; intros (o & Ho & E); exists o;
        (split; [|exact E]).
      * now apply (Permutation_in _ Hp).
      * now apply (Permutation_in _ (Permutation_sym Hp)).
  - intros name i i' Hi Hi'.
    destruct (group_entry_inv _ _ _ Hi) as [_ ->].
    destruct (group_entry_inv _ _ _ Hi') as [_ ->].
    cbn [ds_size ds_objects dataset_info]. split.
    + rewrite !sum_sizes_total. unfold matching.
      now rewrite (total_bytes_permutation _ _ (filter_permutation _ _ _ Hp)).
    + apply Permutation_map. unfold matching. now apply filter_permutation.
Qed.

End GrouperOrder.

Lemma listed_object_is_grouped_witness :
  exists info,
    PyDict.get (group_objects sample_objects) (derived_name "A-META-2.ndjson")
    = Some info /\
    In (BUCKET_BASE ++ "/" ++ "A-META-2.ndjson") (ds_objects info).
Proof.
  apply (listed_object_is_grouped sample_objects
           (obj "A-META-2.ndjson" (50 * 1048576)) "A-META-2.ndjson").
  - cbn. auto.
  - reflexivity.
  - reflexivity.
Defined.

Lemma nested_names_share_objects_witness :
  In (BUCKET_BASE ++ "/XA-META-1.ndjson")
     (ds_objects (dataset_info nested_objects "A-META")).
Proof.
  apply (nested_names_share_objects nested_objects
           "A-META" (dataset_info nested_objects "A-META")
           "XA-META" (dataset_info nested_objects "XA-META")).
  - vm_compute. left. reflexivity.
  - vm_compute. right. left. reflexivity.
  - reflexivity.
  - vm_compute. left. reflexivity.
Defined.

Lemma grouping_ignores_listing_order_witness :
  PyDict.keys (group_objects sample_objects)
  = PyDict.keys (group_objects (rev sample_objects)).
Proof.
  apply (grouping_ignores_listing_order sample_objects (rev sample_objects)).
  apply Permutation_rev.
Defined.

(** ** The object lister *)

Section Lister.
Context {W : Type} (env : Env W).

Lemma list_pages_step fuel b api tok acc (w w1 : W) resp data :
  storage_get env api tok w = (inr resp, w1) ->
  page_ok resp data ->
  list_pages env (S fuel) b api tok acc w =
  after [EvList api tok (inr resp)]
        (match nextPageToken data with
         | Some t =>
             list_pages env fuel b api (Some t)
                        (acc ++ page_objects b data)%list w1
         | None => ret (acc ++ page_objects b data)%list w1
         end).
Proof.
  intros Hget (Hst & Hjs). cbn [list_pages].
  rewrite (bind_step _ _ w w1 (inr resp) [EvList api tok (inr resp)])
    by (unfold get_list, request; now rewrite Hget).
  f_equal. cbn [or_raise]. rewrite bind_ret_l. unfold raise_for_status.
  rewrite Hst, bind_ret_l, Hjs, bind_ret_l.
  destruct (nextPageToken data); reflexivity.
Qed.

Lemma list_pages_all b api : forall ds tok (w w' : W) fuel acc,
  pages env api tok w ds w' ->
  (List.length ds <= fuel)%nat ->
  outcome (list_pages env fuel b api tok acc w)
  = Ret (acc ++ concat (map (page_objects b) ds))%list /\
  world (list_pages env fuel b api tok acc w) = w' /\
  listings (trace (list_pages env fuel b api tok acc w))
  = tok :: removelast (map nextPageToken ds).
Proof.
  intros ds tok w w' fuel acc Hp. revert fuel acc.
  induction Hp as [tok w w' resp data Hget Hok Hnone
                  |tok w w1 w2 resp data next rest Hget Hok Hnext Hp IH];
    intros fuel acc Hfuel;
    (destruct fuel as [|fuel]; [cbn in Hfuel; lia|]);
    rewrite (list_pages_step fuel b api tok acc w _ resp data Hget Hok).
  - rewrite Hnone. cbn. now rewrite app_nil_r.
  - rewrite Hnext.
    destruct (IH fuel (acc ++ page_objects b data)%list) as (Ho & Hw & Hl);
      [cbn in Hfuel; lia|].
    unfold after. cbn [outcome world trace app listings].
    rewrite Ho, Hw, Hl, <- app_assoc. repeat split.
    cbn [map]. destruct rest as [|d rest]; [inversion Hp|].
    cbn [map removelast]. now rewrite Hnext.
Qed.

(** X5: when the storage service serves a chain of pages, each naming the
    next but the last, and the fuel covers them, the lister returns the
    kept objects of all pages in page order, after one request per page:
    the first without a page token, every later one with the token the
    page before it named. *)
Theorem listing_follows_page_tokens b ds (w w' : W) fuel :
  pages env (storage_api_url b) None w ds w' ->
  (List.length ds <= fuel)%nat ->
  outcome (list_ndjson_objects env fuel b w)
  = Ret (concat (map (page_objects b) ds)) /\
  world (list_ndjson_objects env fuel b w) = w' /\
  listings (trace (list_ndjson_objects env fuel b w))
  = None :: removelast (map nextPageToken ds).
Proof.
  intros Hp Hfuel. unfold list_ndjson_objects.
  exact (list_pages_all b (storage_api_url b) ds None w w' fuel [] Hp Hfuel).
Qed.

Lemma list_pages_error fuel b api resp a t : forall tok acc (w : W),
  In (EvList a t (inr resp)) (trace (list_pages env fuel b api tok acc w)) ->
  (400 <=? list_status resp) && (list_status resp <? 600) = true ->
  outcome (list_pages env fuel b api tok acc w)
  = Uncaught (HTTPError (list_status resp)).
Proof.
  induction fuel as [|fuel IH]; intros tok acc w Hin Herr; [easy|].
  cbn [list_pages] in *. unfold bind at 1 in Hin. unfold bind at 1.
  unfold get_list, request in *.
  destruct (storage_get env api tok w) as [[e|resp0] w1];
    cbn [outcome world trace or_raise] in *.
  { unfold bind, raise, stop in *. cbn in *.
    destruct Hin as [E|[]]. discriminate. }
  rewrite bind_ret_l in *. unfold raise_for_status in *.
  destruct ((400 <=? list_status resp0) && (list_status resp0 <? 600)) eqn:E0.
  { unfold bind, raise, stop in *. cbn in *.
    destruct Hin as [E|[]]. now inversion E. }
  rewrite bind_ret_l in *.
  assert (Hne : EvList api tok (inr resp0) <> EvList a t (inr resp)).
  { intros E. inversion E; subst. congruence. }
  destruct (list_json resp0) as [data|].
  2:{ unfold bind, raise, stop in *. cbn in *.
      destruct Hin as [E|[]]. contradiction. }
  rewrite bind_ret_l in *.
  destruct (nextPageToken data) as [next|].
  2:{ cbn in *. destruct Hin as [E|[]]. contradiction. }
  cbn [trace app] in Hin. destruct Hin as [E|Hin]; [contradiction|].
  cbn [outcome]. now apply IH.
Qed.

(** X6: a listing page answered with a 4xx or 5xx status ends the listing
    with [HTTPError]: the objects of the pages read before are not
    returned. *)
Theorem listing_error_is_fatal fuel b (w : W) a t resp :
  In (EvList a t (inr resp)) (trace (list_ndjson_objects env fuel b w)) ->
  (400 <=? list_status resp) && (list_status resp <? 600) = true ->
  outcome (list_ndjson_objects env fuel b w)
  = Uncaught (HTTPError (list_status resp)).
Proof. unfold list_ndjson_objects. apply list_pages_error. Qed.

Lemma page_objects_listed b data :
  Forall (listed_under b) (page_objects b data).
Proof.
  unfold page_objects. apply Forall_forall. intros o Ho.
  apply in_map_iff in Ho. destruct Ho as (item & <- & Hi).
  apply filter_In in Hi. destruct Hi as [_ He].
  exists (item_name item). split; [reflexivity|exact He].
Qed.

Lemma list_pages_listed fuel b api : forall tok acc (w : W) objs,
  Forall (listed_under b) acc ->
  outcome (list_pages env fuel b api tok acc w) = Ret objs ->
  Forall (listed_under b) objs.
Proof.
  induction fuel as [|fuel IH]; intros tok acc w objs Hacc Ho; [easy|].
  cbn [list_pages] in Ho. unfold bind at 1 in Ho.
  unfold get_list, request in Ho.
  destruct (storage_get env api tok w) as [[e|resp] w1];
    cbn [outcome world trace or_raise] in Ho; [easy|].
  rewrite bind_ret_l in Ho. unfold raise_for_status in Ho.
  destruct ((400 <=? list_status resp) && (list_status resp <? 600)); [easy|].
  rewrite bind_ret_l in Ho.
  destruct (list_json resp) as [data|]; [|easy].
  rewrite bind_ret_l in Ho.
  assert (Hacc' : Forall (listed_under b) (acc ++ page_objects b data)%list).
  { apply Forall_app. split; [exact Hacc|apply page_objects_listed]. }
  destruct (nextPageToken data) as [next|]; cbn [outcome] in Ho.
  - eapply IH; eauto.
  - inversion Ho. now subst.
Qed.

(** X7: whatever the storage service answers, every object the lister
    returns lies under the bucket base and has a URL that ends in
    [.ndjson]. *)
Theorem listed_objects_are_ndjson fuel b (w : W) objs :
  outcome (list_ndjson_objects env fuel b w) = Ret objs ->
  Forall (fun o => listed_under b o /\ PyStr.endswith (url o) NDJSON = true)
         objs.
Proof.
  intros Ho. unfold list_ndjson_objects in Ho.
  pose proof (list_pages_listed fuel b _ None [] w objs (Forall_nil _) Ho) as H.
  eapply Forall_impl; [|exact H]. intros o Hl. split; [exact Hl|].
  destruct Hl as (name & -> & He).
  rewrite <- string_app_assoc. now apply endswith_app.
Qed.

(** X8: the URLs of a discovered dataset all end in [.ndjson], so the
    suffix filter at the head of [submit_import] keeps every one of
    them. *)
Theorem discovered_urls_pass_suffix_filter fuel (w : W) datasets name info :
  outcome (discover_datasets env fuel w) = Ret datasets ->
  In (name, info) datasets ->
  filter (fun u => PyStr.endswith u NDJSON) (ds_objects info)
  = ds_objects info.
Proof.
  intros Ho Hin. unfold discover_datasets in Ho. rewrite bind_print in Ho.
  unfold after in Ho. cbn [outcome] in Ho. unfold bind in Ho.
  destruct (list_ndjson_objects env fuel BUCKET_BASE w) as [o w1 t1] eqn:El.
  cbn [outcome world trace] in Ho. destruct o as [objs| | |]; try easy.
  cbn in Ho. inversion Ho; subst datasets.
  assert (Hl : outcome (list_ndjson_objects env fuel BUCKET_BASE w) = Ret objs)
    by now rewrite El.
  pose proof (list_pages_listed fuel BUCKET_BASE _ None [] w objs
                (Forall_nil _) Hl) as Hall.
  destruct (group_entry_inv _ _ _ Hin) as [_ ->].
  cbn [ds_objects dataset_info]. apply forallb_filter_id.
  apply forallb_forall. intros u Hu. apply in_map_iff in Hu.
  destruct Hu as (o & <- & Hm). unfold matching in Hm.
  apply filter_In in Hm. destruct Hm as [Hm _].
  rewrite Forall_forall in Hall. destruct (Hall o Hm) as (nm & -> & He).
  rewrite <- string_app_assoc. now apply endswith_app.
Qed.

End Lister.

(** ** More on the import submitter *)

Section SubmitterMore.
Context {W : Type} (env : Env W).

Lemma passing_app t1 t2 : passing (t1 ++ t2) = (passing t1 ++ passing t2)%list.
Proof. unfold passing. now rewrite probes_app, filter_app, map_app. Qed.

Lemma passing_quiet t : quiet t -> passing t = [].
Proof.
  intros H. unfold passing. now rewrite (proj1 (quiet_no_requests _ H)).
Qed.

Lemma passing_no_probes t : probes t = [] -> passing t = [].
Proof. intros H. unfold passing. now rewrite H. Qed.

Lemma after_submit_probes fuel name x (w : W) :
  probes (trace (after_submit env fuel name x w)) = [] /\
  posts (trace (after_submit env fuel name x w)) = [].
Proof.
  rewrite after_submit_run. destruct x as [e|resp]; [split; reflexivity|].
  destruct (headers_get (post_headers resp) "Content-Location") as [loc|];
    [|split; reflexivity].
  unfold after. cbn [trace app probes posts].
  destruct (poll_import_status_trace env fuel name loc w) as (H1 & H2 & _).
  now split.
Qed.

(** The three ways a submission goes. *)
Lemma submit_import_shape fuel name urls (w : W) :
  (candidates urls = [] /\
   submit_import env fuel name urls w =
   {| outcome := Ret tt; world := w;
      trace := [EvPrint (MsgNoResources name)] |})
  \/
  exists w1 t,
    candidates urls <> [] /\
    map fst (probes t) = candidates urls /\ posts t = [] /\ polls t = [] /\
    ((passing t = [] /\
      submit_import env fuel name urls w =
      {| outcome := Ret tt; world := w1;
         trace := EvPrint (MsgImporting name (List.length (candidates urls)))
                  :: t ++ [EvPrint (MsgNoValidResources name)] |})
     \/
     (passing t <> [] /\
      exists lines, quiet lines /\
      submit_import env fuel name urls w =
      after (EvPrint (MsgImporting name (List.length (candidates urls)))
               :: t ++ lines
               ++ [EvPost import_url import_headers (import_payload (passing t))
                     (fst (session_post env import_url import_headers
                                        (import_payload (passing t)) w1))])
            (after_submit env fuel name
               (fst (session_post env import_url import_headers
                                  (import_payload (passing t)) w1))
               (snd (session_post env import_url import_headers
                                  (import_payload (passing t)) w1))))).
Proof.
  unfold submit_import. fold (candidates urls).
  destruct (candidates urls) as [|u0 us] eqn:Ec; [left; split; reflexivity|].
  right. rewrite bind_print.
  destruct (validate_urls_run env (u0 :: us) [] w) as (w1 & t & E & Hu & Hp & Hg).
  exists w1, t. split; [discriminate|]. split; [exact Hu|].
  split; [exact Hp|]. split; [exact Hg|].
  rewrite (bind_step _ _ _ _ _ _ E). cbn [app].
  destruct (passing t) as [|v vs] eqn:Ev.
  - left. split; [reflexivity|]. unfold after. cbn. reflexivity.
  - right. split; [discriminate|].
    rewrite (bind_step _ _ _ _ _ _ (add_inputs_run (v :: vs) _ w1)).
    exists (map EvPrint
                (map (fun u => MsgAddingResource (resource_type_of u) u)
                     (v :: vs))).
    split; [apply quiet_prints|].
    unfold post, request. unfold bind at 1. fold (import_payload (v :: vs)).
    destruct (session_post env import_url import_headers
                           (import_payload (v :: vs)) w1) as [x w2].
    unfold after. cbn [outcome world trace fst snd app].
    rewrite <- !app_assoc. reflexivity.
Qed.

(** What a submission's trace holds, when it posted. *)
Lemma submit_import_posted fuel name urls (w : W) u h p r :
  In (EvPost u h p r) (trace (submit_import env fuel name urls w)) ->
  exists w1 t lines,
    map fst (probes t) = candidates urls /\ posts t = [] /\ polls t = [] /\
    passing t <> [] /\ quiet lines /\
    u = import_url /\ h = import_headers /\ p = import_payload (passing t) /\
    (r, snd (session_post env import_url import_headers p w1))
    = session_post env import_url import_headers p w1 /\
    submit_import env fuel name urls w =
    after (EvPrint (MsgImporting name (List.length (candidates urls)))
             :: t ++ lines ++ [EvPost u h p r])
          (after_submit env fuel name r
             (snd (session_post env import_url import_headers p w1))).
Proof.
  intros Hin.
  destruct (submit_import_shape fuel name urls w)
    as [[_ E]|(w1 & t & _ & Hu & Hp & Hg & [[_ E]|(Hv & lines & Hq & E)])].
  - rewrite E in Hin. cbn in Hin. destruct Hin as [?|[]]. discriminate.
  - rewrite E in Hin. cbn [trace] in Hin. exfalso.
    destruct Hin as [?|Hin]; [discriminate|].
    apply in_app_or in Hin. destruct Hin as [Hin|[?|[]]]; [|discriminate].
    revert Hin. now apply posts_nil_not_in.
  - pose proof Hin as Hin'. rewrite E in Hin'. unfold after in Hin'.
    cbn [trace] in Hin'. rewrite <- app_comm_cons in Hin'.
    destruct Hin' as [?|Hin']; [discriminate|].
    rewrite <- !app_assoc in Hin'.
    apply in_app_or in Hin'. destruct Hin' as [Hin'|Hin'].
    { exfalso. revert Hin'. now apply posts_nil_not_in. }
    apply in_app_or in Hin'. destruct Hin' as [Hin'|Hin'].
    { exfalso. revert Hin'. apply posts_nil_not_in.
      apply (quiet_no_requests _ Hq). }
    cbn [app] in Hin'. destruct Hin' as [Eq|Hin'].
    + inversion Eq; subst u h p r.
      exists w1, t, lines. repeat split; auto.
      now destruct (session_post env import_url import_headers
                                 (import_payload (passing t)) w1).
    + exfalso. revert Hin'. apply posts_nil_not_in.
      apply after_submit_probes.
Qed.

(** X9: a submission hands control back to its caller exactly when no
    URL passed validation, and that is exactly when it posted nothing. *)
Theorem submission_returns_iff_nothing_valid fuel name urls (w : W) :
  (outcome (submit_import env fuel name urls w) = Ret tt
   <-> passing (trace (submit_import env fuel name urls w)) = []) /\
  (posts (trace (submit_import env fuel name urls w)) = []
   <-> passing (trace (submit_import env fuel name urls w)) = []).
Proof.
  destruct (submit_import_shape fuel name urls w)
    as [[_ E]|(w1 & t & _ & Hu & Hp & Hg & [[Hv E]|(Hv & lines & Hq & E)])];
    rewrite E.
  - split; split; reflexivity.
  - cbn [outcome trace]. rewrite app_comm_cons, passing_app, posts_app.
    change (passing (EvPrint (MsgImporting name (List.length (candidates urls))) :: t))
      with (passing t).
    change (posts (EvPrint (MsgImporting name (List.length (candidates urls))) :: t))
      with (posts t).
    rewrite Hv, Hp. split; split; reflexivity.
  - unfold after. cbn [outcome trace].
    destruct (after_submit_no_return env fuel name
                (fst (session_post env import_url import_headers
                                   (import_payload (passing t)) w1))
                (snd (session_post env import_url import_headers
                                   (import_payload (passing t)) w1)))
      as [Hno _].
    destruct (after_submit_probes fuel name
                (fst (session_post env import_url import_headers
                                   (import_payload (passing t)) w1))
                (snd (session_post env import_url import_headers
                                   (import_payload (passing t)) w1)))
      as [Hpr Hpo].
    set (x := fst (session_post env import_url import_headers
                                (import_payload (passing t)) w1)) in *.
    set (w2 := snd (session_post env import_url import_headers
                                 (import_payload (passing t)) w1)) in *.
    assert (Epa : passing (EvPrint (MsgImporting name
                                      (List.length (candidates urls)))
                           :: t ++ lines
                           ++ [EvPost import_url import_headers
                                      (import_payload (passing t)) x]
                           ++ trace (after_submit env fuel name x w2))
                  = passing t).
    { rewrite app_comm_cons, !passing_app, (passing_quiet _ Hq).
      rewrite (passing_no_probes _ Hpr).
      rewrite (passing_no_probes
                 [EvPost import_url import_headers
                         (import_payload (passing t)) x] eq_refl).
      cbn [app]. rewrite app_nil_r. reflexivity. }
    assert (Epo : posts (EvPrint (MsgImporting name
                                    (List.length (candidates urls)))
                         :: t ++ lines
                         ++ [EvPost import_url import_headers
                                    (import_payload (passing t)) x]
                         ++ trace (after_submit env fuel name x w2))
                  = [import_payload (passing t)]).
    { rewrite app_comm_cons, !posts_app, Hpo.
      rewrite (proj1 (proj2 (quiet_no_requests _ Hq))).
      cbn [posts]. rewrite Hp. reflexivity. }
    rewrite <- app_comm_cons, <- !app_assoc. rewrite Epa, Epo.
    destruct (passing t) as [|v vs]; [congruence|].
    split; split; intros H; try discriminate; try contradiction.
Qed.

(** X10: what is posted goes to the [$import] endpoint with the fixed
    headers; its body is the three fixed parameters followed by one input
    entry per URL that passed its probe, in probe order; the probed URLs
    are the candidates that end in [.ndjson], so every submitted URL is
    one of them. *)
Theorem submitted_job_names_validated_urls fuel name urls (w : W) u h p r :
  In (EvPost u h p r) (trace (submit_import env fuel name urls w)) ->
  u = import_url /\ h = import_headers /\
  p_resourceType p = "Parameters" /\
  parameter p
  = (base_parameters
     ++ map input_parameter
            (passing (trace (submit_import env fuel name urls w))))%list /\
  map fst (probes (trace (submit_import env fuel name urls w)))
  = candidates urls /\
  Forall (fun v => In v urls /\ PyStr.endswith v NDJSON = true)
         (passing (trace (submit_import env fuel name urls w))).
Proof.
  intros Hin.
  destruct (submit_import_posted fuel name urls w u h p r Hin)
    as (w1 & t & lines & Hu & Hp & Hg & Hv & Hq & -> & -> & -> & _ & E).
  destruct (after_submit_probes fuel name r
              (snd (session_post env import_url import_headers
                                 (import_payload (passing t)) w1)))
    as [Hpr _].
  assert (Epr : probes (trace (submit_import env fuel name urls w)) = probes t).
  { rewrite E. unfold after. cbn [trace].
    rewrite !app_comm_cons, !probes_app, Hpr.
    rewrite (proj1 (quiet_no_requests _ Hq)). cbn. now rewrite !app_nil_r. }
  assert (Epa : passing (trace (submit_import env fuel name urls w)) = passing t).
  { unfold passing. now rewrite Epr. }
  rewrite Epa, Epr. repeat split; auto.
  apply Forall_forall. intros v Hv'. unfold passing in Hv'.
  apply in_map_iff in Hv'. destruct Hv' as ([v' a] & Ev & Hf). cbn in Ev. subst v'.
  apply filter_In in Hf. destruct Hf as [Hf _].
  assert (Hc : In v (candidates urls)).
  { rewrite <- Hu. apply in_map_iff. now exists (v, a). }
  unfold candidates in Hc. now apply filter_In in Hc.
Qed.

(** X11: an exception raised by the [POST] itself is not caught: it
    ends the submission, and no status URL is asked for. *)
Theorem failed_post_escapes fuel name urls (w : W) u h p e :
  In (EvPost u h p (inl e)) (trace (submit_import env fuel name urls w)) ->
  outcome (submit_import env fuel name urls w) = Uncaught e /\
  polls (trace (submit_import env fuel name urls w)) = [].
Proof.
  intros Hin.
  destruct (submit_import_posted fuel name urls w u h p (inl e) Hin)
    as (w1 & t & lines & Hu & Hp & Hg & Hv & Hq & -> & -> & -> & _ & E).
  rewrite E, after_submit_run. unfold after. cbn [outcome trace].
  split; [reflexivity|].
  rewrite !app_comm_cons, !polls_app. cbn [polls]. rewrite Hg.
  rewrite (proj2 (proj2 (quiet_no_requests _ Hq))). reflexivity.
Qed.

End SubmitterMore.

(** ** More on the status poller *)

Section PollerMore.
Context {W : Type} (env : Env W).

(** How one turn of the loop ends, by the answer it got. *)
Lemma poll_once_outcome name u (w : W) :
  outcome (poll_once env name u w) =
  match fst (requests_get env u w) with
  | inl e => Uncaught e
  | inr resp =>
      if negb (PyStr.contains "json"
                 (headers_get_default (st_headers resp) "Content-Type" ""))
      then SysExit 1
      else match st_json resp with
           | None => Uncaught JSONDecodeError
           | Some data =>
               if st_status resp =? 202 then Ret tt
               else if negb (st_status resp =? 200) then SysExit 1
               else if match resourceType data with
                       | Some t => negb (t =? "OperationOutcome")%string
                       | None => true
                       end
               then SysExit 1
               else outcome (handle_outcome env name data
                                            (snd (requests_get env u w)))
           end
  end.
Proof.
  unfold poll_once, bind, get, request.
  destruct (requests_get env u w) as [[e|resp] w']; cbn -[handle_outcome];
    [reflexivity|].
  destruct (PyStr.contains "json" _); cbn -[handle_outcome]; [|reflexivity].
  destruct (st_json resp) as [data|]; cbn -[handle_outcome]; [|reflexivity].
  destruct (st_status resp =? 202); cbn -[handle_outcome]; [reflexivity|].
  destruct (st_status resp =? 200); cbn -[handle_outcome]; [|reflexivity].
  destruct (match resourceType data with
            | Some t => negb (t =? "OperationOutcome")%string
            | None => true
            end); cbn -[handle_outcome]; [reflexivity|].
  destruct (handle_outcome env name data w') as [o w2 t]. cbn.
  destruct o; reflexivity.
Qed.

Lemma handle_outcome_ends name data (w : W) :
  outcome (handle_outcome env name data w) = SysExit 0 \/
  exists e, outcome (handle_outcome env name data w) = Uncaught e.
Proof.
  destruct (no_error (issues_of data)) eqn:E.
  - rewrite (handle_outcome_passed env name data w E).
    destruct (embedded_report (issues_of data));
      [destruct (load_report env s)|]; cbn; eauto.
  - rewrite (handle_outcome_failed env name data w E). now left.
Qed.

(** X12: the polling loop goes round again exactly when the answer has a
    content type with [json], a body that decodes and status 202. *)
Theorem poller_goes_on_iff_in_progress name u (w : W) :
  outcome (poll_once env name u w) = Ret tt <->
  exists resp data,
    fst (requests_get env u w) = inr resp /\ in_progress resp data.
Proof.
  rewrite poll_once_outcome. unfold in_progress.
  destruct (fst (requests_get env u w)) as [e|resp].
  { split; [discriminate|]. intros (? & ? & ? & _). discriminate. }
  destruct (PyStr.contains "json" _) eqn:Hct; cbn [negb].
  2:{ split; [discriminate|]. intros (r & d & E & H & _).
      inversion E; subst r. congruence. }
  destruct (st_json resp) as [data|] eqn:Hjs.
  2:{ split; [discriminate|]. intros (r & d & E & _ & H & _).
      inversion E; subst r. congruence. }
  destruct (st_status resp =? 202) eqn:H202.
  { split; [|reflexivity]. intros _. exists resp, data.
    apply Z.eqb_eq in H202. auto. }
  apply Z.eqb_neq in H202.
  assert (Hno : ~ exists r d, @inr Exn _ resp = inr r /\
                 PyStr.contains "json"
                   (headers_get_default (st_headers r) "Content-Type" "")
                 = true /\ st_json r = Some d /\ st_status r = 202).
  { intros (r & d & E & _ & _ & H). inversion E; subst r. contradiction. }
  destruct (st_status resp =? 200); cbn [negb];
    [|split; [discriminate|intros H; now elim Hno]].
  destruct (match resourceType data with
            | Some t => negb (t =? "OperationOutcome")%string
            | None => true
            end); [split; [discriminate|intros H; now elim Hno]|].
  split; [|intros H; now elim Hno].
  intros H. exfalso.
  destruct (handle_outcome_ends name data (snd (requests_get env u w)))
    as [E|[e E]]; congruence.
Qed.

(** X13: the poller exits with code 1 exactly on a protocol error: a
    content type without [json] whatever the status, or a decodable body
    with a status other than 200 and 202, or status 200 with a resource
    type that is missing or is not [OperationOutcome]. *)
Theorem poller_exits_with_1_iff_protocol_error name u (w : W) :
  outcome (poll_once env name u w) = SysExit 1 <->
  exists resp,
    fst (requests_get env u w) = inr resp /\ protocol_error resp.
Proof.
  rewrite poll_once_outcome. unfold protocol_error.
  destruct (fst (requests_get env u w)) as [e|resp].
  { split; [discriminate|]. intros (? & ? & _). discriminate. }
  destruct (PyStr.contains "json" _) eqn:Hct; cbn [negb].
  2:{ split; [|reflexivity]. intros _. exists resp. auto. }
  assert (Hinv : forall P : StatusResponse -> Prop,
            (exists r, @inr Exn _ resp = inr r /\ P r) <-> P resp).
  { intros P. split; [intros (r & E & H); now inversion E; subst|].
    intros H. now exists resp. }
  rewrite Hinv. clear Hinv.
  destruct (st_json resp) as [data|] eqn:Hjs.
  2:{ split; [discriminate|]. intros [H|(d & H & _)]; congruence. }
  destruct (Z.eqb_spec (st_status resp) 202) as [E202|N202].
  { split; [discriminate|]. intros [H|(d & _ & H & _)]; [congruence|].
    contradiction. }
  destruct (Z.eqb_spec (st_status resp) 200) as [E200|N200]; cbn [negb].
  2:{ split; [|reflexivity]. intros _. right. exists data. auto. }
  destruct (resourceType data) as [rt|] eqn:Hrt.
  2:{ split; [|reflexivity]. intros _. right. exists data.
      repeat split; auto. right. rewrite Hrt. discriminate. }
  destruct (String.eqb_spec rt "OperationOutcome") as [->|Hne]; cbn [negb].
  - split.
    + intros H. exfalso.
      destruct (handle_outcome_ends name data (snd (requests_get env u w)))
        as [E|[e E]]; congruence.
    + intros [H|(d & Ed & _ & [H|H])]; [congruence|contradiction|].
      inversion Ed; subst d. rewrite Hrt in H. now elim H.
  - split; [|reflexivity]. intros _. right. exists data.
    repeat split; auto. right. rewrite Hrt. congruence.
Qed.

Lemma sleeps_app a b : sleeps (a ++ b) = (sleeps a ++ sleeps b)%list.
Proof.
  induction a as [|e a IH]; cbn; [reflexivity|].
  destruct e; cbn; now rewrite IH.
Qed.

Lemma sleeps_issue_lines l : sleeps (issue_lines l) = [].
Proof. induction l; cbn; auto. Qed.

Lemma handle_outcome_sleeps name data (w : W) :
  sleeps (trace (handle_outcome env name data w)) = [].
Proof.
  destruct (no_error (issues_of data)) eqn:E.
  - rewrite (handle_outcome_passed env name data w E).
    destruct (embedded_report (issues_of data));
      [destruct (load_report env s)|]; cbn [trace];
      now rewrite sleeps_app, sleeps_issue_lines.
  - rewrite (handle_outcome_failed env name data w E). cbn [trace].
    now rewrite sleeps_app, sleeps_issue_lines.
Qed.

Lemma poll_waits name u pending :
  forall (w w1 w2 : W) resp data fuel,
    waits env u w pending w1 ->
    requests_get env u w1 = (inr resp, w2) ->
    terminal_outcome resp data ->
    (List.length pending < fuel)%nat ->
    exists t,
      poll_import_status env fuel name u w
      = after t (handle_outcome env name data w2) /\
      polls t = repeat u (S (List.length pending)) /\
      sleeps t = repeat POLL_INTERVAL (List.length pending).
Proof.
  induction pending as [|r pending IH];
    intros w w1 w2 resp data fuel Hw Hget Hterm Hfuel;
    (destruct fuel as [|fuel]; [simpl in Hfuel; lia|]);
    inversion Hw; subst; cbn [poll_import_status].
  - exists [EvGet u (inr resp)].
    split; [|split; reflexivity].
    unfold bind. rewrite (poll_once_terminal env name u w1 w2 resp data Hget Hterm).
    unfold after. cbn [outcome world trace app].
    pose proof (handle_outcome_never env name data w2) as Hn.
    destruct (handle_outcome env name data w2) as [o w3 t3].
    cbn in *. destruct o; try reflexivity. now elim (Hn a).
  - match goal with
    | Hg : requests_get env u w = _, Hp : in_progress _ _,
      Hr : waits env u _ pending _ |- _ =>
        rewrite (bind_step _ _ _ _ _ _
                   (poll_once_in_progress env name u _ _ _ _ Hg Hp));
        destruct (IH _ _ _ _ _ fuel Hr Hget Hterm) as (t & E & Hpo & Hsl);
          [simpl in Hfuel; lia|]
    end.
    rewrite E, after_after. eexists. split; [reflexivity|].
    cbn. rewrite Hpo, Hsl. split; reflexivity.
Qed.

(** X14: when the server answers in progress [n] times and then with a
    terminal outcome, and the fuel covers [n + 1] turns, the poller asks
    for the status URL [n + 1] times, sleeps [POLL_INTERVAL] seconds [n]
    times, and ends as the handling of that outcome ends. *)
Theorem poller_waits_for_the_outcome name u pending
        (w w1 w2 : W) resp data fuel :
  waits env u w pending w1 ->
  requests_get env u w1 = (inr resp, w2) ->
  terminal_outcome resp data ->
  (List.length pending < fuel)%nat ->
  outcome (poll_import_status env fuel name u w)
  = outcome (handle_outcome env name data w2) /\
  polls (trace (poll_import_status env fuel name u w))
  = repeat u (S (List.length pending)) /\
  sleeps (trace (poll_import_status env fuel name u w))
  = repeat POLL_INTERVAL (List.length pending).
Proof.
  intros Hw Hget Hterm Hfuel.
  destruct (poll_waits name u pending w w1 w2 resp data fuel Hw Hget Hterm Hfuel)
    as (t & E & Hpo & Hsl).
  rewrite E. unfold after. cbn [outcome trace]. split; [reflexivity|].
  assert (Hq : quiet (trace (handle_outcome env name data w2)))
    by apply handle_outcome_quiet.
  rewrite polls_app, sleeps_app, Hpo, Hsl, handle_outcome_sleeps.
  rewrite (proj2 (proj2 (quiet_no_requests _ Hq))).
  now rewrite !app_nil_r.
Qed.

Lemma embedded_report_no_error issues d :
  embedded_report issues = Some d -> no_error issues = true.
Proof.
  unfold embedded_report, no_error.
  destruct issues as [|i [|j rest]]; try discriminate.
  destruct (severity i) as [s|] eqn:Es; [|discriminate].
  destruct (String.eqb_spec s "information") as [->|]; [|discriminate].
  intros _. cbn. unfold issue_severity. now rewrite Es.
Qed.

(** X15: when the outcome is a single informational issue whose
    diagnostics mention [reportMsg], the diagnostics are decoded.  If
    that works, the report is printed in place of the payload and the
    process exits with 0; if it raises, the exception escapes and the
    completion is never reported. *)
Theorem embedded_report_is_unwrapped name u (w w' : W) resp data d :
  requests_get env u w = (inr resp, w') ->
  terminal_outcome resp data ->
  embedded_report (issues_of data) = Some d ->
  match load_report env d with
  | inr report =>
      outcome (poll_once env name u w) = SysExit 0 /\
      In (EvPrint (MsgReport name report)) (trace (poll_once env name u w)) /\
      In (EvPrint (MsgImportCompleted name)) (trace (poll_once env name u w)) /\
      ~ In (EvPrint (MsgPayload data)) (trace (poll_once env name u w))
  | inl e =>
      outcome (poll_once env name u w) = Uncaught e /\
      ~ In (EvPrint (MsgImportCompleted name)) (trace (poll_once env name u w))
  end.
Proof.
  intros Hget Hterm Hd.
  pose proof (embedded_report_no_error _ _ Hd) as Hok.
  rewrite (poll_once_terminal env name u w w' resp data Hget Hterm).
  rewrite (handle_outcome_passed env name data w' Hok), Hd.
  destruct (load_report env d) as [e|report]; unfold after;
    cbn [outcome trace app].
  - split; [reflexivity|]. intros [H|H]; [discriminate|].
    rewrite app_nil_r in H. revert H. apply not_in_issue_lines. discriminate.
  - split; [reflexivity|]. split; [|split].
    + right. apply in_or_app. right. cbn. auto.
    + right. apply in_or_app. right. cbn. auto.
    + intros [H|H]; [discriminate|]. apply in_app_or in H.
      destruct H as [H|H].
      * revert H. apply not_in_issue_lines. discriminate.
      * cbn in H. intuition discriminate.
Qed.

(** X16: a terminal outcome that lists no issue (the field is missing or
    the list is empty) counts as a success: the payload and the completion
    are printed and the process exits with 0. *)
Theorem outcome_without_issues_succeeds name u (w w' : W) resp data :
  requests_get env u w = (inr resp, w') ->
  terminal_outcome resp data ->
  issue data = None \/ issue data = Some [] ->
  poll_once env name u w =
  {| outcome := SysExit 0; world := w';
     trace := [EvGet u (inr resp); EvPrint (MsgPayload data);
               EvPrint (MsgImportCompleted name)] |}.
Proof.
  intros Hget Hterm Hi.
  assert (E : issues_of data = [])
    by (unfold issues_of; destruct Hi as [-> | ->]; reflexivity).
  rewrite (poll_once_terminal env name u w w' resp data Hget Hterm).
  rewrite (handle_outcome_passed env name data w');
    rewrite E; reflexivity.
Qed.

End PollerMore.

(** ** More on the command line *)

Section CommandMore.
Context {W : Type} (env : Env W).

Lemma list_pages_only_lists fuel b api : forall tok acc (w : W),
  forallb is_listing (trace (list_pages env fuel b api tok acc w)) = true.
Proof.
  induction fuel as [|fuel IH]; intros tok acc w;
    cbn [list_pages]; [reflexivity|].
  unfold bind at 1. unfold get_list, request.
  destruct (storage_get env api tok w) as [[e|resp] w'];
    cbn [outcome world trace or_raise]; [reflexivity|].
  rewrite bind_ret_l. unfold raise_for_status.
  destruct ((400 <=? list_status resp) && (list_status resp <? 600));
    [reflexivity|].
  rewrite bind_ret_l.
  destruct (list_json resp) as [data|]; [|reflexivity].
  rewrite bind_ret_l.
  destruct (nextPageToken data) as [next|]; [|reflexivity].
  cbn [trace app forallb is_listing andb]. apply IH.
Qed.

Lemma only_lists_requests t :
  forallb is_listing t = true -> probes t = [] /\ polls t = [].
Proof.
  induction t as [|e t IH]; cbn; [auto|].
  destruct e; cbn; try discriminate. exact IH.
Qed.

Lemma list_pages_requests fuel b api tok acc (w : W) :
  probes (trace (list_pages env fuel b api tok acc w)) = [] /\
  polls (trace (list_pages env fuel b api tok acc w)) = [].
Proof. apply only_lists_requests, list_pages_only_lists. Qed.

Lemma discover_datasets_requests fuel (w : W) :
  probes (trace (discover_datasets env fuel w)) = [] /\
  polls (trace (discover_datasets env fuel w)) = [].
Proof.
  unfold discover_datasets. rewrite bind_print. unfold after.
  cbn [trace app probes polls]. unfold list_ndjson_objects.
  destruct (bind_trace_cases
              (list_pages env fuel BUCKET_BASE
                 ("https://storage.googleapis.com/storage/v1/b/"
                  ++ PyStr.last_segment "/" BUCKET_BASE ++ "/o") None [])
              (fun objects => ret (group_objects objects)) w)
    as [[E _]|(objects & _ & E)]; rewrite E.
  - apply list_pages_requests.
  - unfold after. cbn [trace ret]. rewrite app_nil_r.
    apply list_pages_requests.
Qed.

Lemma list_loop_run ds : forall w : W,
  list_loop ds w =
  {| outcome := Ret tt; world := w;
     trace := map (fun kv => EvPrint (MsgDataset (fst kv) (ds_size (snd kv))))
                  ds |}.
Proof.
  induction ds as [|[dataset info] ds IH]; intros w; cbn [list_loop];
    [reflexivity|].
  rewrite bind_print, IH. reflexivity.
Qed.

(** X17: the [list] command asks the storage service only: no URL is
    probed, nothing is submitted, no status is asked for.  When the
    discovery returns, one line per dataset is printed after the heading,
    in the order of the keys, and the command returns. *)
Theorem list_command_only_lists fuel a (w : W) :
  command a = CmdList ->
  probes (trace (main env fuel a w)) = [] /\
  posts (trace (main env fuel a w)) = [] /\
  polls (trace (main env fuel a w)) = [] /\
  forall datasets,
    outcome (discover_datasets env fuel w) = Ret datasets ->
    outcome (main env fuel a w) = Ret tt /\
    trace (main env fuel a w)
    = (trace (discover_datasets env fuel w)
       ++ EvPrint MsgAvailable
       :: map (fun kv => EvPrint (MsgDataset (fst kv) (ds_size (snd kv))))
              datasets)%list.
Proof.
  intros Hc. unfold main. rewrite Hc.
  destruct (discover_datasets_requests fuel w) as [Dpr Dpl].
  pose proof (discover_datasets_trace env fuel w) as Dpo.
  destruct (bind_trace_cases (discover_datasets env fuel)
              (fun datasets => print MsgAvailable ;; list_loop datasets) w)
    as [[E Hn]|(ds & Ho & E)].
  - rewrite E. split; [|split; [|split]]; auto.
    intros ds Ho. now elim (Hn ds).
  - rewrite E, bind_print, list_loop_run. unfold after.
    cbn [outcome trace app].
    set (lines := map _ ds).
    assert (Hq : quiet (EvPrint MsgAvailable :: lines)).
    { apply Forall_forall. intros e [<-|He]; [reflexivity|].
      unfold lines in He. apply in_map_iff in He.
      now destruct He as (kv & <- & _). }
    destruct (quiet_no_requests _ Hq) as (Lpr & Lpo & Lpl).
    rewrite probes_app, posts_app, polls_app, Dpr, Dpo, Dpl, Lpr, Lpo, Lpl.
    split; [|split; [|split]]; auto.
    intros ds' Ho'. rewrite Ho in Ho'. inversion Ho'. subst ds'.
    split; reflexivity.
Qed.

(** X18: the filters of the command line only take datasets away: the
    import loop does on a dictionary what it does, without filters, on
    the entries that are not skipped.  Without [--skip-legacy], an absent
    or empty [--only] skips nothing. *)
Theorem filters_only_drop_datasets fuel a datasets (w : W) :
  import_loop env fuel a datasets w
  = import_loop env fuel import_all (selected a datasets) w /\
  (skip_legacy a = false -> only a = None \/ only a = Some "" ->
   selected a datasets = datasets).
Proof.
  split.
  - revert w. induction datasets as [|[dataset info] ds IH]; intros w;
      [reflexivity|].
    cbn [import_loop selected filter fst]. unfold skipped.
    destruct (skip_legacy a && PyStr.startswith dataset "R4");
      cbn [orb negb]; [apply IH|].
    destruct (excluded_by_only a dataset); cbn [negb]; [apply IH|].
    transitivity (bind (submit_import env fuel dataset (ds_objects info))
                       (fun _ => import_loop env fuel import_all
                                             (selected a ds)) w);
      [|reflexivity].
    unfold bind.
    destruct (outcome (submit_import env fuel dataset (ds_objects info) w));
      try reflexivity.
    now rewrite IH.
  - intros Hs Ho. unfold selected. apply forallb_filter_id.
    apply forallb_forall. intros [k v] _. cbn [fst]. unfold skipped.
    rewrite Hs. cbn [andb orb]. unfold excluded_by_only.
    destruct Ho as [-> | ->]; reflexivity.
Qed.

Lemma import_loop_returns fuel a ds : forall w : W,
  outcome (import_loop env fuel a ds w) = Ret tt ->
  posts (trace (import_loop env fuel a ds w)) = [] /\
  polls (trace (import_loop env fuel a ds w)) = [].
Proof.
  induction ds as [|[dataset info] ds IH]; intros w; cbn [import_loop].
  - split; reflexivity.
  - destruct (skip_legacy a && PyStr.startswith dataset "R4"); [apply IH|].
    destruct (excluded_by_only a dataset); [apply IH|].
    destruct (bind_trace_cases (submit_import env fuel dataset (ds_objects info))
                (fun _ => import_loop env fuel a ds) w)
      as [[E Hn]|([] & Ho & E)].
    + intros Hr. exfalso. unfold bind in Hr.
      destruct (outcome (submit_import env fuel dataset (ds_objects info) w))
        eqn:Eo; cbn in Hr; try discriminate. now elim (Hn a0).
    + rewrite E. unfold after. cbn [outcome trace]. intros Hr.
      destruct (submit_import_run env fuel dataset (ds_objects info) w)
        as [(_ & Hp & Hg)|(t0 & w1 & payload & _ & _ & _ & E')].
      * rewrite posts_app, polls_app, Hp, Hg. now apply IH.
      * exfalso. rewrite E' in Ho. unfold after in Ho. cbn [outcome] in Ho.
        now apply (after_submit_no_return env fuel dataset _ _) in Ho.
Qed.

(** X19: the script returns to its caller only when it has submitted
    nothing and asked for no status; once a job is submitted, the run ends
    in an exit, in an exception, or is still polling. *)
Theorem run_returns_only_if_nothing_submitted fuel a (w : W) :
  outcome (main env fuel a w) = Ret tt ->
  posts (trace (main env fuel a w)) = [] /\
  polls (trace (main env fuel a w)) = [].
Proof.
  unfold main.
  destruct (discover_datasets_requests fuel w) as [_ Dpl].
  pose proof (discover_datasets_trace env fuel w) as Dpo.
  destruct (bind_trace_cases (discover_datasets env fuel)
              (fun datasets =>
                 match command a with
                 | CmdImport => import_loop env fuel a datasets
                 | CmdList => print MsgAvailable ;; list_loop datasets
                 end) w)
    as [[E Hn]|(ds & Ho & E)].
  - intros _. rewrite E. auto.
  - rewrite E. unfold after. cbn [outcome trace].
    rewrite posts_app, polls_app, Dpo, Dpl. cbn [app].
    destruct (command a).
    + apply import_loop_returns.
    + intros _. rewrite bind_print, list_loop_run. unfold after.
      cbn [trace app posts polls].
      assert (Hq : quiet (map (fun kv => EvPrint (MsgDataset (fst kv)
                                                   (ds_size (snd kv)))) ds)).
      { apply Forall_forall. intros e He. apply in_map_iff in He.
        now destruct He as (kv & <- & _). }
      destruct (quiet_no_requests _ Hq) as (_ & Lpo & Lpl). auto.
Qed.

End CommandMore.

(** ** Resource types *)

Section ResourceTypes.

Lemma has_char_app sep a b :
  PyStr.has_char sep (a ++ b) = PyStr.has_char sep a || PyStr.has_char sep b.
Proof.
  induction a as [|c a IH]; cbn; [reflexivity|].
  now rewrite IH, orb_assoc.
Qed.

Lemma last_segment_plain sep s :
  PyStr.has_char sep s = false -> PyStr.last_segment sep s = s.
Proof. intros H. destruct s as [|c s]; [reflexivity|]. cbn [PyStr.last_segment]. now rewrite H. Qed.

Lemma last_segment_after sep rest : forall dir,
  PyStr.has_char sep rest = false ->
  PyStr.last_segment sep (dir ++ String sep rest) = rest.
Proof.
  induction dir as [|c dir IH]; intros H.
  - cbn [append PyStr.last_segment PyStr.has_char].
    rewrite Ascii.eqb_refl. cbn [orb]. now apply last_segment_plain.
  - cbn [append PyStr.last_segment].
    change (PyStr.has_char sep (String c (dir ++ String sep rest)))
      with (Ascii.eqb c sep || PyStr.has_char sep (dir ++ String sep rest)).
    rewrite has_char_app. cbn [PyStr.has_char]. rewrite Ascii.eqb_refl.
    cbn [orb]. rewrite !orb_true_r. now apply IH.
Qed.

Lemma replace_go_suffix : forall stem,
  PyStr.has_char "." stem = false ->
  PyStr.replace_go NDJSON "" (stem ++ NDJSON) 0 = stem.
Proof.
  induction stem as [|c stem IH]; intros H; [reflexivity|].
  cbn [PyStr.has_char] in H. apply orb_false_iff in H. destruct H as [Hc Hs].
  cbn [append PyStr.replace_go].
  assert (Hp : String.prefix NDJSON (String c (stem ++ NDJSON)) = false).
  { unfold NDJSON. cbn [String.prefix].
    destruct (ascii_dec "." c) as [<-|]; [|reflexivity].
    now rewrite Ascii.eqb_refl in Hc. }
  rewrite Hp. now rewrite IH.
Qed.

(** X20: for a URL [dir/stem.ndjson] whose stem has neither a slash nor
    a dot, the resource type declared in the submission is the stem. *)
Theorem resource_type_is_file_stem dir stem :
  PyStr.has_char "/" stem = false ->
  PyStr.has_char "." stem = false ->
  resource_type_of (dir ++ "/" ++ stem ++ NDJSON) = stem.
Proof.
  intros Hs Hd. unfold resource_type_of.
  change (dir ++ "/" ++ stem ++ NDJSON)
    with (dir ++ String "/" (stem ++ NDJSON)).
  rewrite last_segment_after.
  - now apply replace_go_suffix.
  - rewrite has_char_app, Hs. reflexivity.
Qed.

End ResourceTypes.

(** ** Instances *)

Lemma listing_follows_page_tokens_witness :
  outcome (list_ndjson_objects paged_env 2 BUCKET_BASE 0%nat)
  = Ret (concat (map (page_objects BUCKET_BASE) [page_one; page_two])) /\
  world (list_ndjson_objects paged_env 2 BUCKET_BASE 0%nat) = 2%nat /\
  listings (trace (list_ndjson_objects paged_env 2 BUCKET_BASE 0%nat))
  = None :: removelast (map nextPageToken [page_one; page_two]).
Proof.
  apply (listing_follows_page_tokens paged_env BUCKET_BASE
           [page_one; page_two] 0%nat 2%nat 2).
  - apply (pages_next paged_env _ None 0%nat 1%nat 2%nat
             (two_pages None) page_one "p2" [page_two]);
      [reflexivity|split; reflexivity|reflexivity|].
    apply (pages_last paged_env _ (Some "p2") 1%nat 2%nat
             (two_pages (Some "p2")) page_two);
      [reflexivity|split; reflexivity|reflexivity].
  - cbn. lia.
Defined.

Lemma listing_error_is_fatal_witness :
  outcome (list_ndjson_objects forbidden_env 3 BUCKET_BASE 0%nat)
  = Uncaught (HTTPError 403).
Proof.
  apply (listing_error_is_fatal forbidden_env 3 BUCKET_BASE 0%nat
           (storage_api_url BUCKET_BASE) None forbidden_page).
  - vm_compute. left. reflexivity.
  - reflexivity.
Defined.

Lemma listed_objects_are_ndjson_witness :
  Forall (fun o => listed_under BUCKET_BASE o
                   /\ PyStr.endswith (url o) NDJSON = true) listed_pair.
Proof.
  apply (listed_objects_are_ndjson paged_env 2 BUCKET_BASE 0%nat listed_pair).
  reflexivity.
Defined.

Lemma discovered_urls_pass_suffix_filter_witness :
  filter (fun u => PyStr.endswith u NDJSON)
         (ds_objects (dataset_info listed_pair "A-META"))
  = ds_objects (dataset_info listed_pair "A-META").
Proof.
  apply (discovered_urls_pass_suffix_filter paged_env 2 0%nat
           (group_objects listed_pair) "A-META").
  - reflexivity.
  - vm_compute. left. reflexivity.
Defined.

Lemma submitted_job_names_validated_urls_witness :
  map fst (probes (trace (submit_import two_dataset_env 3 "A-META"
                            [sample_url; "notes.txt"] 0%nat)))
  = candidates [sample_url; "notes.txt"].
Proof.
  apply (submitted_job_names_validated_urls two_dataset_env 3 "A-META"
           [sample_url; "notes.txt"] 0%nat
           import_url import_headers sample_payload accepted).
  vm_compute. do 3 right. left. reflexivity.
Defined.

Lemma failed_post_escapes_witness :
  outcome (submit_import broken_post_env 3 "A-META" [sample_url] 0%nat)
  = Uncaught (RequestException "connection reset") /\
  polls (trace (submit_import broken_post_env 3 "A-META" [sample_url] 0%nat))
  = [].
Proof.
  apply (failed_post_escapes broken_post_env 3 "A-META" [sample_url] 0%nat
           import_url import_headers sample_payload).
  vm_compute. do 3 right. left. reflexivity.
Defined.

Lemma poller_waits_for_the_outcome_witness :
  outcome (poll_import_status
             (sample_env [] probe_ok accepted (then_outcome failing_issues))
             3 "A-META" "status" 0%nat)
  = outcome (handle_outcome
               (sample_env [] probe_ok accepted (then_outcome failing_issues))
               "A-META" (outcome_data failing_issues) 3%nat) /\
  polls (trace (poll_import_status
                  (sample_env [] probe_ok accepted (then_outcome failing_issues))
                  3 "A-META" "status" 0%nat))
  = repeat "status" 3 /\
  sleeps (trace (poll_import_status
                   (sample_env [] probe_ok accepted (then_outcome failing_issues))
                   3 "A-META" "status" 0%nat))
  = repeat POLL_INTERVAL 2.
Proof.
  apply (poller_waits_for_the_outcome
           (sample_env [] probe_ok accepted (then_outcome failing_issues))
           "A-META" "status" [waiting_response; waiting_response]
           0%nat 2%nat 3%nat
           (status_response 200 (outcome_data failing_issues))
           (outcome_data failing_issues) 3).
  - apply (waits_more _ _ 0%nat 1%nat 2%nat waiting_response (outcome_data []));
      [reflexivity|repeat split|].
    apply (waits_more _ _ 1%nat 2%nat 2%nat waiting_response (outcome_data []));
      [reflexivity|repeat split|].
    apply waits_done.
  - reflexivity.
  - repeat split.
  - cbn. lia.
Defined.

Lemma embedded_report_is_unwrapped_witness :
  outcome (poll_once (terminal_env [report_issue]) "A-META" "status" 0%nat)
  = SysExit 0 /\
  In (EvPrint (MsgReport "A-META" "3 imported"))
     (trace (poll_once (terminal_env [report_issue]) "A-META" "status" 0%nat)) /\
  In (EvPrint (MsgImportCompleted "A-META"))
     (trace (poll_once (terminal_env [report_issue]) "A-META" "status" 0%nat)) /\
  ~ In (EvPrint (MsgPayload (outcome_data [report_issue])))
       (trace (poll_once (terminal_env [report_issue]) "A-META" "status" 0%nat)).
Proof.
  exact (embedded_report_is_unwrapped (terminal_env [report_issue])
           "A-META" "status" 0%nat 1%nat
           (status_response 200 (outcome_data [report_issue]))
           (outcome_data [report_issue]) report_document
           eq_refl (conj eq_refl (conj eq_refl (conj eq_refl eq_refl)))
           eq_refl).
Defined.

Lemma outcome_without_issues_succeeds_witness :
  poll_once (terminal_env []) "A-META" "status" 0%nat =
  {| outcome := SysExit 0; world := 1%nat;
     trace := [EvGet "status" (inr (status_response 200 (outcome_data [])));
               EvPrint (MsgPayload (outcome_data []));
               EvPrint (MsgImportCompleted "A-META")] |}.
Proof.
  apply (outcome_without_issues_succeeds (terminal_env []) "A-META" "status"
           0%nat 1%nat (status_response 200 (outcome_data []))
           (outcome_data [])).
  - reflexivity.
  - repeat split.
  - right. reflexivity.
Defined.

Lemma list_command_only_lists_witness :
  probes (trace (main two_dataset_env 5 list_args 0%nat)) = [] /\
  posts (trace (main two_dataset_env 5 list_args 0%nat)) = [] /\
  polls (trace (main two_dataset_env 5 list_args 0%nat)) = [].
Proof.
  destruct (list_command_only_lists two_dataset_env 5 list_args 0%nat eq_refl)
    as (H1 & H2 & H3 & _).
  auto.
Defined.

Lemma run_returns_only_if_nothing_submitted_witness :
  posts (trace (main unreachable_env 5 import_all 0%nat)) = [] /\
  polls (trace (main unreachable_env 5 import_all 0%nat)) = [].
Proof.
  apply (run_returns_only_if_nothing_submitted unreachable_env 5 import_all
           0%nat).
  reflexivity.
Defined.

Lemma resource_type_is_file_stem_witness :
  resource_type_of ((BUCKET_BASE ++ "/R5/TCGA-META") ++ "/" ++ "Patient" ++ NDJSON)
  = "Patient".
Proof.
  apply (resource_type_is_file_stem (BUCKET_BASE ++ "/R5/TCGA-META") "Patient");
    reflexivity.
Defined.

(** ** Datasets that cannot be fetched *)

Section Unreachable.
Context {W : Type} (env : Env W).
Hypothesis no_probe_passes :
  forall u (w : W), probe_passes (fst (session_head env u w)) = false.

Lemma validate_urls_all_fail urls : forall acc (w : W),
  exists w' t,
    validate_urls env urls acc w =
    {| outcome := Ret acc; world := w'; trace := t |} /\
    map fst (probes t) = urls /\ posts t = [] /\ polls t = [].
Proof.
  induction urls as [|u urls IH]; intros acc w; cbn [validate_urls].
  - exists w, []. repeat split.
  - destruct (check_url_run env u w) as (t0 & E0 & Hq).
    destruct (quiet_no_requests _ Hq) as (Hpr & Hpo & Hge).
    rewrite (bind_step _ _ _ _ _ _ E0), no_probe_passes.
    destruct (IH acc (snd (session_head env u w)))
      as (w' & t & E & Hu & Hp & Hg).
    exists w', (EvHead u (fst (session_head env u w)) :: t0 ++ t)%list.
    rewrite E. unfold after. cbn [outcome world trace app probes posts polls map fst].
    rewrite !probes_app, posts_app, polls_app, Hpr, Hpo, Hge. cbn [app].
    rewrite Hu, Hp, Hg. repeat split.
Qed.

Lemma submit_import_all_fail fuel name urls (w : W) :
  outcome (submit_import env fuel name urls w) = Ret tt /\
  map fst (probes (trace (submit_import env fuel name urls w)))
  = candidates urls /\
  posts (trace (submit_import env fuel name urls w)) = [].
Proof.
  unfold submit_import. fold (candidates urls).
  destruct (candidates urls) as [|u0 us]; [repeat split|].
  rewrite bind_print.
  destruct (validate_urls_all_fail (u0 :: us) [] w)
    as (w1 & t & E & Hu & Hp & Hg).
  rewrite (bind_step _ _ _ _ _ _ E). unfold after.
  cbn [outcome world trace app print emit probes posts].
  rewrite probes_app, posts_app. cbn [probes posts].
  rewrite !app_nil_r, Hu, Hp. repeat split.
Qed.

(** X21: when no probe passes, the import loop goes through every
    selected dataset: it probes the candidate URLs of each, in the order
    of the dictionary, submits nothing, and returns. *)
Theorem unreachable_datasets_are_all_visited fuel a datasets (w : W) :
  outcome (import_loop env fuel a datasets w) = Ret tt /\
  map fst (probes (trace (import_loop env fuel a datasets w)))
  = concat (map (fun kv => candidates (ds_objects (snd kv)))
                (selected a datasets)) /\
  posts (trace (import_loop env fuel a datasets w)) = [].
Proof.
  revert w. induction datasets as [|[dataset info] ds IH]; intros w.
  - repeat split.
  - cbn [import_loop selected filter fst]. unfold skipped.
    destruct (skip_legacy a && PyStr.startswith dataset "R4");
      cbn [orb negb]; [apply IH|].
    destruct (excluded_by_only a dataset); cbn [negb]; [apply IH|].
    destruct (submit_import_all_fail fuel dataset (ds_objects info) w)
      as (So & Sp & Spo).
    unfold bind. rewrite So.
    destruct (IH (world (submit_import env fuel dataset (ds_objects info) w)))
      as (Io & Ip & Ipo).
    cbn [outcome trace map concat snd].
    rewrite probes_app, posts_app, map_app, Sp, Spo, Io, Ipo.
    fold (selected a ds) in Ip. unfold selected in Ip |- *. rewrite Ip.
    repeat split.
Qed.

End Unreachable.

Lemma unreachable_datasets_are_all_visited_witness :
  outcome (import_loop unreachable_env 3 import_all
                       (group_objects listed_pair) 0%nat) = Ret tt /\
  map fst (probes (trace (import_loop unreachable_env 3 import_all
                                      (group_objects listed_pair) 0%nat)))
  = concat (map (fun kv => candidates (ds_objects (snd kv)))
                (selected import_all (group_objects listed_pair))) /\
  posts (trace (import_loop unreachable_env 3 import_all
                            (group_objects listed_pair) 0%nat)) = [].
Proof.
  apply (unreachable_datasets_are_all_visited unreachable_env).
  intros u w. reflexivity.
Defined.

(** ** Dataset names, as specified *)

Section SpecifiedNames.

Lemma strip_prefix base name :
  (if String.prefix base (base ++ name)
   then Some (substring (String.length base)
                        (String.length (base ++ name) - String.length base)
                        (base ++ name))
   else None) = Some name.
Proof.
  rewrite prefix_app, length_app. f_equal.
  replace (String.length base + String.length name - String.length base)%nat
    with (String.length name) by lia.
  rewrite <- (Nat.add_0_r (String.length base)) at 1.
  rewrite substring_shift. now apply substring_0_all.
Qed.

Lemma spec_relative_path_listed name :
  spec_relative_path (BUCKET_BASE ++ "/" ++ name) = Some name.
Proof.
  unfold spec_relative_path. cbv zeta.
  rewrite <- (string_app_assoc BUCKET_BASE "/" name).
  apply strip_prefix.
Qed.

(** The cut of the specification and the index [find] answers. *)
Lemma cut_and_find : forall p i,
  match spec_cut_at_marker p with
  | Some n =>
      exists pre post,
        n = pre ++ MARKER /\ p = pre ++ MARKER ++ post /\
        PyStr.find_from MARKER p i = i + Z.of_nat (String.length pre)
  | None => PyStr.find_from MARKER p i = -1
  end.
Proof.
  induction p as [|c p IH]; intros i.
  - cbn [spec_cut_at_marker PyStr.find_from].
    destruct (String.prefix MARKER "") eqn:Hp; [discriminate Hp|reflexivity].
  - cbn [spec_cut_at_marker PyStr.find_from].
    destruct (String.prefix MARKER (String c p)) eqn:Hp.
    + destruct (prefix_split _ _ Hp) as [post E].
      exists "", post. cbn [append String.length]. repeat split; [exact E|lia].
    + specialize (IH (i + 1)).
      destruct (spec_cut_at_marker p) as [n|]; cbn [option_map]; [|exact IH].
      destruct IH as (pre & post & -> & -> & Hf).
      exists (String c pre), post. cbn [append String.length].
      repeat split. rewrite Hf. lia.
Qed.

Lemma derived_name_is_cut p n :
  spec_cut_at_marker p = Some n -> derived_name p = n.
Proof.
  intros Hc. pose proof (cut_and_find p 0) as H. rewrite Hc in H.
  destruct H as (pre & post & -> & -> & Hf).
  unfold derived_name, PyStr.find. rewrite Hf, Z.add_0_l, <- Nat2Z.inj_add.
  rewrite <- string_app_assoc, <- length_app. apply slice_to_prefix.
Qed.

Lemma marked_path_is_cut p :
  PyStr.contains MARKER p = true -> exists n, spec_cut_at_marker p = Some n.
Proof.
  intros Hm. pose proof (cut_and_find p 0) as H.
  destruct (spec_cut_at_marker p) as [n|]; [now exists n|].
  unfold PyStr.contains, PyStr.find in Hm. rewrite H in Hm. discriminate.
Qed.

(** Outside the case of a path without marker, the keys are what the
    specification says: for a listing whose objects lie under the bucket
    base (the name not repeating it) and all carry the marker, the keys of
    the result are the distinct paths cut at the end of the marker, in
    lexicographic order. *)
Lemma keys_are_marker_cut_names objects :
  (forall o, In o objects ->
     exists name,
       url o = BUCKET_BASE ++ "/" ++ name /\
       PyStr.contains (BUCKET_BASE ++ "/") name = false /\
       PyStr.contains MARKER name = true) ->
  PyDict.keys (group_objects objects) = spec_dataset_names objects.
Proof.
  intros H. rewrite group_objects_keys. unfold projects, spec_dataset_names.
  do 2 f_equal. induction objects as [|o objects IH]; [reflexivity|].
  cbn [map flat_map].
  destruct (H o (or_introl eq_refl)) as (name & Hu & Hb & Hm).
  destruct (marked_path_is_cut name Hm) as [n Hn].
  rewrite (relative_path_listed o name Hu Hb), (derived_name_is_cut name n Hn).
  unfold spec_derived_name. rewrite Hu, spec_relative_path_listed, Hn.
  cbn [app]. f_equal. apply IH. intros o' Ho'. apply H. now right.
Qed.

End SpecifiedNames.

Lemma keys_are_marker_cut_names_instance :
  PyDict.keys (group_objects sample_objects) = spec_dataset_names sample_objects.
Proof.
  apply (keys_are_marker_cut_names sample_objects).
  intros o [<-|[<-|[<-|[]]]]; eexists; (split; [reflexivity|]);
    split; reflexivity.
Defined.

(** C7: the listing holds [A-META-1.ndjson] and [patient.ndjson].  The
    second path has no marker, so no name is cut from it and the names of
    the specification are [A-META] alone; the keys of the result hold
    [pat] besides, the first three characters of that path. *)
Theorem marker_cut_names_are_not_the_keys :
  spec_relative_path (url (obj "patient.ndjson" 1048576))
  = Some "patient.ndjson" /\
  spec_cut_at_marker "patient.ndjson" = None /\
  spec_dataset_names unmarked_objects = ["A-META"] /\
  PyDict.keys (group_objects unmarked_objects) = ["A-META"; "pat"] /\
  PyDict.keys (group_objects unmarked_objects)
  <> spec_dataset_names unmarked_objects.
Proof.
  repeat split; try (vm_compute; reflexivity).
  vm_compute. discriminate.
Qed.
